(** * Ink: the log-update renderers and the scroll handle of [Box]

    A shallow embedding of [src/log-update.ts] (the standard and the
    incremental terminal renderer) and of the imperative handle and the
    overflow resolution of [src/components/Box.tsx], with the properties of
    the specification proved or refuted on them.

    Conventions of the embedding.
    - A JavaScript string is a [string]; [===] on strings is [String.eqb].
    - Line counts and layout values are integers ([Z]); Yoga rounds the
      computed layout to the cell grid.  A number handed to [scrollTo] by a
      caller is a [number], which also has the infinities and NaN.
    - The closure variables of a renderer ([previousOutput], ...) are the
      fields of a state record, threaded explicitly; what a call does to the
      outside world is the list of [event]s it returns, in order.
    - The functions of the [ansi-escapes] package are an interface
      ([AnsiEscapes]); every theorem holds for any implementation of it. *)

From Stdlib Require Import ZArith List String Ascii Bool Lia.
From Stdlib Require Import Numbers.DecimalString.
Import ListNotations.

Local Open Scope string_scope.
Local Open Scope list_scope.
Local Open Scope Z_scope.

Set Implicit Arguments.

(* ================================================================== *)
(** ** JavaScript strings *)

Module Js.

(** The newline character, ['\n']. *)
Definition nl : ascii := ascii_of_nat 10.

(** The one-character string ["\n"]. *)
Definition newline : string := String nl EmptyString.

(** [s.split('\n')]: the pieces of [s] between newlines.  The result is
    never empty: [''.split('\n')] is [['']]. *)
Fixpoint split (s : string) : list string :=
  match s with
  | EmptyString => [EmptyString]
  | String c rest =>
      if Ascii.eqb c nl then EmptyString :: split rest
      else match split rest with
           | line :: lines => String c line :: lines
           | [] => [String c EmptyString]
           end
  end.

(** [chunks.join('')]. *)
Definition join (chunks : list string) : string := String.concat "" chunks.

(** [s.length], as a number. *)
Definition length (s : string) : Z := Z.of_nat (String.length s).

(** [a ?? b] where [a] may be [undefined]. *)
Definition nullish {A : Type} (a : option A) (b : A) : A :=
  match a with
  | Some v => v
  | None => b
  end.

(** [a === b] for two values that are a string or [undefined]. *)
Definition strict_eq (a b : option string) : bool :=
  match a, b with
  | Some x, Some y => String.eqb x y
  | None, None => true
  | _, _ => false
  end.

End Js.

(* ================================================================== *)
(** ** The terminal: escape sequences and observable events *)

(** The part of [ansi-escapes] that [log-update.ts] calls. *)
Class AnsiEscapes : Type := {
  eraseLines : Z -> string;
  cursorUp : Z -> string;
  eraseLine : string;
  cursorNextLine : string
}.

(** What a renderer does to the outside: [stream.write(chunk)],
    [cliCursor.hide()] and [cliCursor.show()]. *)
Inductive event : Type :=
| Write (chunk : string)
| CursorHide
| CursorShow.

(** The chunks written to the output stream, in order. *)
Fixpoint stream_writes (evs : list event) : list string :=
  match evs with
  | [] => []
  | Write chunk :: rest => chunk :: stream_writes rest
  | _ :: rest => stream_writes rest
  end.

Definition is_hide (e : event) : bool :=
  match e with CursorHide => true | _ => false end.

Definition is_show (e : event) : bool :=
  match e with CursorShow => true | _ => false end.

(** How often the cursor is hidden, resp. shown, in a trace. *)
Definition hides (evs : list event) : nat := List.length (filter is_hide evs).
Definition shows (evs : list event) : nat := List.length (filter is_show evs).

(* ================================================================== *)
(** ** [createStandard] *)

Module Standard.

Record state : Type := mkState {
  previousLineCount : Z;
  previousOutput : string;
  hasHiddenCursor : bool
}.

Definition init : state :=
  {| previousLineCount := 0; previousOutput := ""; hasHiddenCursor := false |}.

Section Renderer.
Context {ansi : AnsiEscapes}.
Variable showCursor : bool.

(** The head of [render]: hide the cursor once. *)
Definition hideCursor (st : state) : state * list event :=
  if negb showCursor && negb (hasHiddenCursor st) then
    ({| previousLineCount := previousLineCount st;
        previousOutput := previousOutput st;
        hasHiddenCursor := true |}, [CursorHide])
  else (st, []).

Definition render (st : state) (str : string) : state * list event :=
  let (st, evs) := hideCursor st in
  let output := str in
  if String.eqb output (previousOutput st) then (st, evs)
  else
    ({| previousLineCount := Z.of_nat (List.length (Js.split output));
        previousOutput := output;
        hasHiddenCursor := hasHiddenCursor st |},
     evs ++ [Write (eraseLines (previousLineCount st) ++ output)%string]).

Definition clear (st : state) : state * list event :=
  ({| previousLineCount := 0;
      previousOutput := "";
      hasHiddenCursor := hasHiddenCursor st |},
   [Write (eraseLines (previousLineCount st))]).

Definition done (st : state) : state * list event :=
  let evs := if 0 <? Js.length (previousOutput st)
             then [Write Js.newline] else [] in
  if negb showCursor then
    ({| previousLineCount := 0; previousOutput := "";
        hasHiddenCursor := false |}, evs ++ [CursorShow])
  else
    ({| previousLineCount := 0; previousOutput := "";
        hasHiddenCursor := hasHiddenCursor st |}, evs).

Definition sync (st : state) (str : string) : state * list event :=
  let output := str in
  ({| previousLineCount := Z.of_nat (List.length (Js.split output));
      previousOutput := output;
      hasHiddenCursor := hasHiddenCursor st |}, []).

End Renderer.
End Standard.

(* ================================================================== *)
(** ** [createIncremental] *)

Module Incremental.

Record state : Type := mkState {
  previousLines : list string;
  previousOutput : string;
  hasHiddenCursor : bool
}.

Definition init : state :=
  {| previousLines := []; previousOutput := ""; hasHiddenCursor := false |}.

Section Renderer.
Context {ansi : AnsiEscapes}.
Variable showCursor : bool.

Definition hideCursor (st : state) : state * list event :=
  if negb showCursor && negb (hasHiddenCursor st) then
    ({| previousLines := previousLines st;
        previousOutput := previousOutput st;
        hasHiddenCursor := true |}, [CursorHide])
  else (st, []).

(** [nextLines[i] !== previousLines[i]]; an index past the end of an array
    reads [undefined]. *)
Definition contentChanged (nextLines previousLines : list string) (i : nat)
  : bool :=
  negb (Js.strict_eq (nth_error nextLines i) (nth_error previousLines i)).

(** The first chunks of the buffer: erase the surplus lines and go to the
    top of what stays, or go to the top of the previous block. *)
Definition positionCursor (previousCount nextCount : Z) : list string :=
  if nextCount <? previousCount then
    [eraseLines (previousCount - nextCount); cursorUp nextCount]
  else [cursorUp (previousCount - 1)].

(** The [for] loop over the line indexes: [todo] iterations are left, the
    next one is for index [i]; [buffer.push] appends at the end. *)
Fixpoint diffLines (todo : nat) (i : nat) (nextLines previousLines : list string)
  (visibleCount : Z) (buffer : list string) : list string :=
  match todo with
  | O => buffer
  | S todo' =>
      let changed := contentChanged nextLines previousLines i in
      let buffer :=
        if changed
        then buffer ++ [eraseLine; Js.nullish (nth_error nextLines i) ""]
        else buffer in
      let buffer :=
        if Z.of_nat i <? visibleCount - 1
        then buffer ++ [if changed then Js.newline else cursorNextLine]
        else buffer in
      diffLines todo' (S i) nextLines previousLines visibleCount buffer
  end.

Definition render (st : state) (str : string) : state * list event :=
  let (st, evs) := hideCursor st in
  let output := str in
  if String.eqb output (previousOutput st) then (st, evs)
  else
    let previousCount := Z.of_nat (List.length (previousLines st)) in
    let nextLines := Js.split output in
    let nextCount := Z.of_nat (List.length nextLines) in
    let visibleCount := nextCount in
    if String.eqb output "" || (Js.length (previousOutput st) =? 0) then
      ({| previousLines := nextLines;
          previousOutput := output;
          hasHiddenCursor := hasHiddenCursor st |},
       evs ++ [Write (eraseLines previousCount ++ output)%string])
    else
      let buffer := positionCursor previousCount nextCount in
      let buffer :=
        diffLines (List.length nextLines) 0 nextLines (previousLines st)
                  visibleCount buffer in
      ({| previousLines := nextLines;
          previousOutput := output;
          hasHiddenCursor := hasHiddenCursor st |},
       evs ++ [Write (Js.join buffer)]).

Definition clear (st : state) : state * list event :=
  ({| previousLines := [];
      previousOutput := "";
      hasHiddenCursor := hasHiddenCursor st |},
   [Write (eraseLines (Z.of_nat (List.length (previousLines st))))]).

Definition done (st : state) : state * list event :=
  let evs := if 0 <? Js.length (previousOutput st)
             then [Write Js.newline] else [] in
  if negb showCursor then
    ({| previousLines := []; previousOutput := "";
        hasHiddenCursor := false |}, evs ++ [CursorShow])
  else
    ({| previousLines := []; previousOutput := "";
        hasHiddenCursor := hasHiddenCursor st |}, evs).

Definition sync (st : state) (str : string) : state * list event :=
  let output := str in
  ({| previousLines := Js.split output;
      previousOutput := output;
      hasHiddenCursor := hasHiddenCursor st |}, []).

End Renderer.
End Incremental.

(* ================================================================== *)
(** ** [create]: one interface, two variants *)

(** A renderer as [create] returns it: the variant chosen by
    [incremental], the captured [showCursor] option and the closure
    variables of that variant. *)
Inductive LogUpdate : Type :=
| StandardRenderer (showCursor : bool) (st : Standard.state)
| IncrementalRenderer (showCursor : bool) (st : Incremental.state).

Definition create (showCursor incremental : bool) : LogUpdate :=
  if incremental then IncrementalRenderer showCursor Incremental.init
  else StandardRenderer showCursor Standard.init.

Section Interface.
Context {ansi : AnsiEscapes}.

Definition render (r : LogUpdate) (str : string) : LogUpdate * list event :=
  match r with
  | StandardRenderer sc st =>
      let (st', evs) := Standard.render sc st str in
      (StandardRenderer sc st', evs)
  | IncrementalRenderer sc st =>
      let (st', evs) := Incremental.render sc st str in
      (IncrementalRenderer sc st', evs)
  end.

Definition clear (r : LogUpdate) : LogUpdate * list event :=
  match r with
  | StandardRenderer sc st =>
      let (st', evs) := Standard.clear st in (StandardRenderer sc st', evs)
  | IncrementalRenderer sc st =>
      let (st', evs) := Incremental.clear st in
      (IncrementalRenderer sc st', evs)
  end.

Definition done (r : LogUpdate) : LogUpdate * list event :=
  match r with
  | StandardRenderer sc st =>
      let (st', evs) := Standard.done sc st in (StandardRenderer sc st', evs)
  | IncrementalRenderer sc st =>
      let (st', evs) := Incremental.done sc st in
      (IncrementalRenderer sc st', evs)
  end.

Definition sync (r : LogUpdate) (str : string) : LogUpdate * list event :=
  match r with
  | StandardRenderer sc st =>
      let (st', evs) := Standard.sync st str in (StandardRenderer sc st', evs)
  | IncrementalRenderer sc st =>
      let (st', evs) := Incremental.sync st str in
      (IncrementalRenderer sc st', evs)
  end.

(** A call of one of the four operations of a renderer. *)
Inductive call : Type :=
| Render (str : string)
| Clear
| Done
| Sync (str : string).

Definition perform (r : LogUpdate) (c : call) : LogUpdate * list event :=
  match c with
  | Render str => render r str
  | Clear => clear r
  | Done => done r
  | Sync str => sync r str
  end.

(** A sequence of calls, with everything it does to the outside. *)
Fixpoint run (r : LogUpdate) (calls : list call) : LogUpdate * list event :=
  match calls with
  | [] => (r, [])
  | c :: rest =>
      let (r1, evs1) := perform r c in
      let (r2, evs2) := run r1 rest in
      (r2, evs1 ++ evs2)
  end.

End Interface.

(** The closure variables of a renderer, read from outside. *)
Definition showCursorOf (r : LogUpdate) : bool :=
  match r with
  | StandardRenderer sc _ | IncrementalRenderer sc _ => sc
  end.

Definition previousOutputOf (r : LogUpdate) : string :=
  match r with
  | StandardRenderer _ st => Standard.previousOutput st
  | IncrementalRenderer _ st => Incremental.previousOutput st
  end.

Definition hasHiddenCursorOf (r : LogUpdate) : bool :=
  match r with
  | StandardRenderer _ st => Standard.hasHiddenCursor st
  | IncrementalRenderer _ st => Incremental.hasHiddenCursor st
  end.

(** What a renderer remembers of the lines on the screen: a count in the
    standard variant, the lines themselves in the incremental one. *)
Inductive lineCache : Type :=
| CachedCount (previousLineCount : Z)
| CachedLines (previousLines : list string).

Definition lineCacheOf (r : LogUpdate) : lineCache :=
  match r with
  | StandardRenderer _ st => CachedCount (Standard.previousLineCount st)
  | IncrementalRenderer _ st => CachedLines (Incremental.previousLines st)
  end.

(** The cache agrees with the tracked output [out]. *)
Definition cacheMatches (c : lineCache) (out : string) : Prop :=
  match c with
  | CachedCount n => n = Z.of_nat (List.length (Js.split out))
  | CachedLines ls => ls = Js.split out
  end.

(** The cache of a renderer on which nothing is rendered. *)
Definition cacheIsReset (c : lineCache) : Prop :=
  match c with
  | CachedCount n => n = 0
  | CachedLines ls => ls = []
  end.

(** The number of lines that the cache stands for. *)
Definition cachedCount (c : lineCache) : Z :=
  match c with
  | CachedCount n => n
  | CachedLines ls => Z.of_nat (List.length ls)
  end.

(** The consistency of the cache with the tracked output. *)
Definition consistent (r : LogUpdate) : Prop :=
  previousOutputOf r <> "" -> cacheMatches (lineCacheOf r) (previousOutputOf r).

(** The standard renderer that tracks the same screen as an incremental one. *)
Definition asStandard (st : Incremental.state) : Standard.state :=
  {| Standard.previousLineCount :=
       Z.of_nat (List.length (Incremental.previousLines st));
     Standard.previousOutput := Incremental.previousOutput st;
     Standard.hasHiddenCursor := Incremental.hasHiddenCursor st |}.

(** What the loop of the incremental renderer is to emit for line [i], in
    the words of the specification: nothing but a move to the next line for
    an unchanged line, an erase and the new content for a changed one, with
    a real newline after it; no move after the last line. *)
Definition lineUpdate {ansi : AnsiEscapes}
  (nextLines previousLines : list string) (i : nat) : list string :=
  let last := Nat.eqb (S i) (List.length nextLines) in
  if Js.strict_eq (nth_error nextLines i) (nth_error previousLines i) then
    if last then [] else [cursorNextLine]
  else
    [eraseLine; nth i nextLines ""] ++ (if last then [] else [Js.newline]).

(* ------------------------------------------------------------------ *)
(** *** The escape sequences of a terminal *)

Module Terminal.

(** [ESC + '['], the control sequence introducer. *)
Definition ESC : string := String (ascii_of_nat 27) "[".

Definition decimal (n : Z) : string := NilZero.string_of_int (Z.to_int n).

Definition cursorUpBy (count : Z) : string := (ESC ++ decimal count ++ "A")%string.
Definition cursorLeft : string := (ESC ++ "G")%string.
Definition eraseCurrentLine : string := (ESC ++ "2K")%string.
Definition nextLine : string := (ESC ++ "E")%string.

(** Erase [count] lines upwards, by [count] iterations of a loop. *)
Fixpoint eraseLoop (todo : nat) (i count : Z) (clear : string) : string :=
  match todo with
  | O => clear
  | S todo' =>
      eraseLoop todo' (i + 1) count
        (clear ++ eraseCurrentLine
               ++ (if (i <? count - 1)%Z then cursorUpBy 1 else ""))%string
  end.

Definition eraseLinesBy (count : Z) : string :=
  let clear := eraseLoop (Z.to_nat count) 0 count "" in
  if count =? 0 then clear else (clear ++ cursorLeft)%string.

(** The sequences that the [ansi-escapes] package produces. *)
Definition vt100 : AnsiEscapes :=
  {| eraseLines := eraseLinesBy;
     cursorUp := cursorUpBy;
     eraseLine := eraseCurrentLine;
     cursorNextLine := nextLine |}.

End Terminal.

(* ================================================================== *)
(** ** JavaScript numbers, as far as [scrollTo] needs them *)

(** A number a caller can pass: an integer, an infinity, or NaN. *)
Inductive number : Type :=
| Num (z : Z)
| PosInfinity
| NegInfinity
| NaN.

Module Math.

(** [Math.min(a, b)]: NaN if one of the two is NaN. *)
Definition min (a b : number) : number :=
  match a, b with
  | NaN, _ | _, NaN => NaN
  | NegInfinity, _ | _, NegInfinity => NegInfinity
  | PosInfinity, v | v, PosInfinity => v
  | Num p, Num q => Num (Z.min p q)
  end.

(** [Math.max(a, b)]: NaN if one of the two is NaN. *)
Definition max (a b : number) : number :=
  match a, b with
  | NaN, _ | _, NaN => NaN
  | PosInfinity, _ | _, PosInfinity => PosInfinity
  | NegInfinity, v | v, NegInfinity => v
  | Num p, Num q => Num (Z.max p q)
  end.

End Math.

(** [a <= b] on numbers; no comparison with NaN holds. *)
Definition number_le (a b : number) : Prop :=
  match a, b with
  | NaN, _ | _, NaN => False
  | NegInfinity, _ | _, PosInfinity => True
  | _, NegInfinity | PosInfinity, _ => False
  | Num p, Num q => p <= q
  end.

(** [r] is [v] clamped into the range from 0 to [m]: the bound that [v]
    lies beyond, and [v] itself when it lies within. *)
Definition clampedInto (m : Z) (v r : number) : Prop :=
  exists c,
    r = Num c
    /\ 0 <= c <= m
    /\ (number_le (Num m) v -> c = m)
    /\ (number_le v (Num 0) -> c = 0)
    /\ (number_le (Num 0) v -> number_le v (Num m) -> v = Num c).

(* ================================================================== *)
(** ** The node tree that the handle of [Box] reads *)

Inductive Edge : Type := EDGE_LEFT | EDGE_TOP | EDGE_RIGHT | EDGE_BOTTOM.

(** The computed layout of a node, as its [yogaNode] reports it. *)
Record YogaNode : Type := mkYogaNode {
  getComputedLeft : Z;
  getComputedTop : Z;
  getComputedWidth : Z;
  getComputedHeight : Z;
  getComputedBorder : Edge -> Z
}.

(** A node of the tree, seen from the element of a [Box]: its optional
    [yogaNode], its parent and its children.  A text node is a node with
    neither a [yogaNode] nor children. *)
#[local] Unset Elimination Schemes.
Inductive DOMElement : Type :=
  mkElement {
    yogaNode : option YogaNode;
    parentNode : option DOMElement;
    childNodes : list DOMElement
  }.
#[local] Set Elimination Schemes.

(** A pair of coordinates: a scroll offset, a maximal scroll. *)
Record Point (A : Type) : Type := mkPoint { x : A; y : A }.

Record Dimensions : Type := mkDimensions { width : Z; height : Z }.

Record Bounds : Type := mkBounds {
  bounds_x : Z;
  bounds_y : Z;
  bounds_width : Z;
  bounds_height : Z
}.

(** The argument of [scrollTo]: [{x?: number; y?: number}]. *)
Record ScrollToOptions : Type := mkOptions {
  option_x : option number;
  option_y : option number
}.

Inductive Overflow : Type := visible | hidden | scroll.

(** The part of the style properties that [Box] resolves itself. *)
Record Styles : Type := mkStyles {
  overflow : option Overflow;
  overflowX : option Overflow;
  overflowY : option Overflow
}.

Module Box.

(** What a mounted [Box] keeps between frames: [scrollStateRef.current],
    the [internal_scrollOffset] of its element, and [scrollVersion]. *)
Record state : Type := mkState {
  scrollStateRef : Point number;
  internal_scrollOffset : option (Point number);
  scrollVersion : Z
}.

Definition mount : state :=
  {| scrollStateRef := {| x := Num 0; y := Num 0 |};
     internal_scrollOffset := None;
     scrollVersion := 0 |}.

(** [measureNode(node, offsetX, offsetY)]; the variables [maxWidth] and
    [maxHeight] it assigns are the accumulator [acc]. *)
Fixpoint measureNode (node : DOMElement) (offsetX offsetY : Z)
  (acc : Dimensions) : Dimensions :=
  match node with
  | mkElement _ _ children =>
      (fix each (nodes : list DOMElement) (acc : Dimensions) : Dimensions :=
         match nodes with
         | [] => acc
         | child :: rest =>
             match child with
             | mkElement (Some childYoga) _ _ =>
                 let childX := offsetX + getComputedLeft childYoga in
                 let childY := offsetY + getComputedTop childYoga in
                 let right := childX + getComputedWidth childYoga in
                 let bottom := childY + getComputedHeight childYoga in
                 let acc := {| width := Z.max (width acc) right;
                               height := Z.max (height acc) bottom |} in
                 each rest (measureNode child childX childY acc)
             | mkElement None _ _ => each rest acc
             end
         end) children acc
  end.

Definition getContentDimensions (element : DOMElement) : Dimensions :=
  match yogaNode element with
  | None => {| width := 0; height := 0 |}
  | Some _ => measureNode element 0 0 {| width := 0; height := 0 |}
  end.

Definition getMaxScroll (element : DOMElement) : Point Z :=
  match yogaNode element with
  | None => {| x := 0; y := 0 |}
  | Some yoga =>
      let containerWidth :=
        getComputedWidth yoga - getComputedBorder yoga EDGE_LEFT
        - getComputedBorder yoga EDGE_RIGHT in
      let containerHeight :=
        getComputedHeight yoga - getComputedBorder yoga EDGE_TOP
        - getComputedBorder yoga EDGE_BOTTOM in
      let content := getContentDimensions element in
      {| x := Z.max 0 (width content - containerWidth);
         y := Z.max 0 (height content - containerHeight) |}
  end.

Definition scrollTo (element : DOMElement) (options : ScrollToOptions)
  (st : state) : state :=
  let maxScroll := getMaxScroll element in
  let current := scrollStateRef st in
  let current :=
    match option_x options with
    | Some x' =>
        {| x := Math.max (Num 0) (Math.min x' (Num (x maxScroll)));
           y := y current |}
    | None => current
    end in
  let current :=
    match option_y options with
    | Some y' =>
        {| x := x current;
           y := Math.max (Num 0) (Math.min y' (Num (y maxScroll))) |}
    | None => current
    end in
  {| scrollStateRef := current;
     internal_scrollOffset := Some current;
     scrollVersion := scrollVersion st + 1 |}.

Definition getScrollPosition (st : state) : Point number := scrollStateRef st.

Definition scrollToTop (st : state) : state :=
  let current := {| x := x (scrollStateRef st); y := Num 0 |} in
  {| scrollStateRef := current;
     internal_scrollOffset := Some current;
     scrollVersion := scrollVersion st + 1 |}.

Definition scrollToBottom (element : DOMElement) (st : state) : state :=
  let maxScroll := getMaxScroll element in
  let current := {| x := x (scrollStateRef st); y := Num (y maxScroll) |} in
  {| scrollStateRef := current;
     internal_scrollOffset := Some current;
     scrollVersion := scrollVersion st + 1 |}.

(** The [while] loop of [getBounds]: [parent] is the node looked at, [x]
    and [y] the sums so far. *)
Fixpoint addParents (parent : DOMElement) (x y : Z) : Z * Z :=
  match parent with
  | mkElement (Some parentYoga) grandparent _ =>
      let x := x + getComputedLeft parentYoga in
      let y := y + getComputedTop parentYoga in
      match grandparent with
      | Some next => addParents next x y
      | None => (x, y)
      end
  | mkElement None _ _ => (x, y)
  end.

Definition getBounds (element : DOMElement) : Bounds :=
  match yogaNode element with
  | None => {| bounds_x := 0; bounds_y := 0;
               bounds_width := 0; bounds_height := 0 |}
  | Some yoga =>
      let x := getComputedLeft yoga in
      let y := getComputedTop yoga in
      let width := getComputedWidth yoga in
      let height := getComputedHeight yoga in
      let (x, y) :=
        match parentNode element with
        | Some parent => addParents parent x y
        | None => (x, y)
        end in
      {| bounds_x := x; bounds_y := y;
         bounds_width := width; bounds_height := height |}
  end.

Definition is_scroll (v : option Overflow) : bool :=
  match v with Some scroll => true | _ => false end.

Definition isScrollContainer (style : Styles) : bool :=
  is_scroll (overflow style) || is_scroll (overflowX style)
  || is_scroll (overflowY style).

(** [a ?? b] where [b] may be [undefined] as well. *)
Definition orElse {A : Type} (a b : option A) : option A :=
  match a with
  | Some _ => a
  | None => b
  end.

(** The [style] that [Box] hands to its [ink-box] element: the properties
    as given, with both overflow axes resolved. *)
Definition boxStyle (style : Styles) : Styles :=
  {| overflow := overflow style;
     overflowX :=
       Some (Js.nullish (orElse (overflowX style) (overflow style)) visible);
     overflowY :=
       Some (Js.nullish (orElse (overflowY style) (overflow style)) visible) |}.

(** The layout effect that [Box] runs after every render: the element of
    a scroll container is handed the scroll position.  (In the source the
    element then holds the very object of [scrollStateRef]; each scroll
    operation ends by replacing it with a copy, so between operations the
    two are read as the same value.) *)
Definition layoutEffect (style : Styles) (st : state) : state :=
  if isScrollContainer style then
    {| scrollStateRef := scrollStateRef st;
       internal_scrollOffset := Some (scrollStateRef st);
       scrollVersion := scrollVersion st |}
  else st.

(** The [internal_scrollVersion] property of the [ink-box] element. *)
Definition internal_scrollVersion (style : Styles) (st : state) : option Z :=
  if isScrollContainer style then Some (scrollVersion st) else None.

(** What happens to a mounted [Box]: a call through its handle, or a
    render followed by the layout effect. *)
Inductive call : Type :=
| ScrollTo (options : ScrollToOptions)
| ScrollToTop
| ScrollToBottom
| LayoutEffect (style : Styles).

Definition perform (element : DOMElement) (st : state) (c : call) : state :=
  match c with
  | ScrollTo options => scrollTo element options st
  | ScrollToTop => scrollToTop st
  | ScrollToBottom => scrollToBottom element st
  | LayoutEffect style => layoutEffect style st
  end.

Definition run (element : DOMElement) (st : state) (calls : list call)
  : state :=
  fold_left (perform element) calls st.


(** A call through the handle, as opposed to a layout effect. *)
Definition is_scroll_call (c : call) : bool :=
  match c with LayoutEffect _ => false | _ => true end.




(** The options of two calls of [scrollTo] in a row, as one: the later
    call decides the axes it gives. *)
Definition merge (first second : ScrollToOptions) : ScrollToOptions :=
  {| option_x := orElse (option_x second) (option_x first);
     option_y := orElse (option_y second) (option_y first) |}.

End Box.

(* ------------------------------------------------------------------ *)
(** *** The tree, read declaratively *)

(** The ancestors of a node, nearest first, up to the root. *)
Fixpoint ancestors (node : DOMElement) : list DOMElement :=
  match node with
  | mkElement _ (Some parent) _ => parent :: ancestors parent
  | mkElement _ None _ => []
  end.

Definition hasGeometry (node : DOMElement) : bool :=
  match yogaNode node with Some _ => true | None => false end.

(** The coordinates of a node in its parent; zero without geometry. *)
Definition leftOf (node : DOMElement) : Z :=
  match yogaNode node with Some yoga => getComputedLeft yoga | None => 0 end.

Definition topOf (node : DOMElement) : Z :=
  match yogaNode node with Some yoga => getComputedTop yoga | None => 0 end.

(** The nodes at the front of a list that have geometry, up to the first
    one that has none. *)
Fixpoint laidOutPrefix (nodes : list DOMElement) : list DOMElement :=
  match nodes with
  | [] => []
  | node :: rest =>
      if hasGeometry node then node :: laidOutPrefix rest else []
  end.

Definition sum (zs : list Z) : Z := fold_right Z.add 0 zs.

(** The greatest of the edges reached from the origin: the greatest number
    of the list, and 0 when none is above the origin. *)
Definition greatest (zs : list Z) : Z := fold_right Z.max 0 zs.

(** The right and bottom edges of the descendants that [node], whose
    content starts at the given offset, is connected to through nodes
    with geometry. *)
Fixpoint laidOutEdges (node : DOMElement) (offsetX offsetY : Z) : list (Z * Z) :=
  match node with
  | mkElement _ _ children =>
      flat_map
        (fun child =>
           match child with
           | mkElement (Some yoga) _ _ =>
               let childX := offsetX + getComputedLeft yoga in
               let childY := offsetY + getComputedTop yoga in
               (childX + getComputedWidth yoga, childY + getComputedHeight yoga)
                 :: laidOutEdges child childX childY
           | mkElement None _ _ => []
           end) children
  end.

(** The bounds in the words of the specification: the coordinates of the
    node plus those of every ancestor up to the root, an ancestor without
    geometry counting for zero. *)
Definition claimed_getBounds (element : DOMElement) : Bounds :=
  match yogaNode element with
  | None => {| bounds_x := 0; bounds_y := 0;
               bounds_width := 0; bounds_height := 0 |}
  | Some yoga =>
      {| bounds_x := getComputedLeft yoga + sum (map leftOf (ancestors element));
         bounds_y := getComputedTop yoga + sum (map topOf (ancestors element));
         bounds_width := getComputedWidth yoga;
         bounds_height := getComputedHeight yoga |}
  end.

(** The edges of all descendants in the words of the specification: every
    descendant is visited, and its offset is accumulated from the origin
    of the container, a node without geometry adding nothing. *)
Fixpoint claimed_edges (node : DOMElement) (offsetX offsetY : Z) : list (Z * Z) :=
  match node with
  | mkElement _ _ children =>
      flat_map
        (fun child =>
           match child with
           | mkElement (Some yoga) _ _ =>
               let childX := offsetX + getComputedLeft yoga in
               let childY := offsetY + getComputedTop yoga in
               (childX + getComputedWidth yoga, childY + getComputedHeight yoga)
                 :: claimed_edges child childX childY
           | mkElement None _ _ => claimed_edges child offsetX offsetY
           end) children
  end.

Definition claimed_contentExtent (element : DOMElement) : Dimensions :=
  {| width := greatest (map fst (claimed_edges element 0 0));
     height := greatest (map snd (claimed_edges element 0 0)) |}.

Definition innerWidth (yoga : YogaNode) : Z :=
  getComputedWidth yoga - getComputedBorder yoga EDGE_LEFT
  - getComputedBorder yoga EDGE_RIGHT.

Definition innerHeight (yoga : YogaNode) : Z :=
  getComputedHeight yoga - getComputedBorder yoga EDGE_TOP
  - getComputedBorder yoga EDGE_BOTTOM.

Definition claimed_maxScroll (element : DOMElement) : Point Z :=
  match yogaNode element with
  | None => {| x := 0; y := 0 |}
  | Some yoga =>
      {| x := Z.max 0 (width (claimed_contentExtent element) - innerWidth yoga);
         y := Z.max 0 (height (claimed_contentExtent element) - innerHeight yoga) |}
  end.

(** No node of the subtree below [node] has geometry. *)
Fixpoint bare (node : DOMElement) : bool :=
  match node with
  | mkElement _ _ children =>
      forallb (fun child => negb (hasGeometry child) && bare child) children
  end.

(** Below [node], nothing with geometry hangs under a node without. *)
Fixpoint connected (node : DOMElement) : bool :=
  match node with
  | mkElement _ _ children =>
      forallb (fun child =>
                 match child with
                 | mkElement (Some _) _ _ => connected child
                 | mkElement None _ _ => bare child
                 end) children
  end.

(* ------------------------------------------------------------------ *)
(** *** Reading traces *)

(** The text that a call leaves as the tracked output. *)
Definition tracks (c : call) : string :=
  match c with
  | Render str | Sync str => str
  | Clear | Done => ""
  end.

(** An event without the text it writes. *)
Definition kind (e : event) : event :=
  match e with
  | Write _ => Write ""
  | _ => e
  end.

(** The lines of a text joined again. *)
Definition unsplit (lines : list string) : string :=
  String.concat Js.newline lines.

(* ------------------------------------------------------------------ *)
(** *** Sample trees *)

Module Sample.

(** Two frames of two lines each that differ in the second line. *)
Definition frame1 : string := ("top" ++ Js.newline ++ "one")%string.
Definition frame2 : string := ("top" ++ Js.newline ++ "two")%string.

(** An incremental renderer that has [frame1] on the screen. *)
Definition shown : Incremental.state :=
  {| Incremental.previousLines := ["top"; "one"];
     Incremental.previousOutput := frame1;
     Incremental.hasHiddenCursor := true |}.

Definition box (left top w h : Z) : YogaNode :=
  {| getComputedLeft := left; getComputedTop := top;
     getComputedWidth := w; getComputedHeight := h;
     getComputedBorder := fun _ => 0 |}.

Definition bordered (left top w h border : Z) : YogaNode :=
  {| getComputedLeft := left; getComputedTop := top;
     getComputedWidth := w; getComputedHeight := h;
     getComputedBorder := fun _ => border |}.

(** A 10 x 5 container with a border of one cell and 20 rows of content,
    the second row holding a nested cell. *)
Definition viewport : DOMElement :=
  mkElement (Some (bordered 0 0 10 5 1)) None
    [ mkElement (Some (box 1 1 8 20)) None
        [ mkElement (Some (box 0 0 8 1)) None [];
          mkElement (Some (box 2 1 12 1)) None [ mkElement None None [] ] ] ].


(** A container whose only child has no geometry and wraps a 20 x 20 box. *)
Definition wrapped : DOMElement :=
  mkElement (Some (box 0 0 10 10)) None
    [ mkElement None None [ mkElement (Some (box 0 0 20 20)) None [] ] ].

Definition root : DOMElement := mkElement (Some (box 5 5 40 20)) None [].

(** A box at (1, 2) in a parent at (3, 4) in [root]. *)
Definition nested : DOMElement :=
  mkElement (Some (box 1 2 4 1))
    (Some (mkElement (Some (box 3 4 10 10)) (Some root) [])) [].

(** A box at (1, 2) whose parent has no geometry, in [root]. *)
Definition detached : DOMElement :=
  mkElement (Some (box 1 2 4 1)) (Some (mkElement None (Some root) [])) [].

End Sample.

(* ================================================================== *)
(** * Properties of the renderers *)

(** Two closed terms that evaluate to different values are different. *)
Ltac differ :=
  let H := fresh "H" in intros H; vm_compute in H; discriminate H.

Section RendererFacts.
Context {ansi : AnsiEscapes}.

Lemma length_positive_iff (s : string) :
  (0 <? Js.length s) = negb (String.eqb s "").
Proof.
  destruct s; reflexivity.
Qed.

Lemma length_zero_iff (s : string) :
  (Js.length s =? 0) = String.eqb s "".
Proof.
  destruct s; reflexivity.
Qed.

Lemma stream_writes_app (evs1 evs2 : list event) :
  stream_writes (evs1 ++ evs2) = stream_writes evs1 ++ stream_writes evs2.
Proof.
  induction evs1 as [|[chunk| |] evs1 IH]; simpl; now rewrite ?IH.
Qed.

Lemma hides_app (evs1 evs2 : list event) :
  hides (evs1 ++ evs2) = (hides evs1 + hides evs2)%nat.
Proof.
  unfold hides. now rewrite filter_app, length_app.
Qed.

Lemma shows_app (evs1 evs2 : list event) :
  shows (evs1 ++ evs2) = (shows evs1 + shows evs2)%nat.
Proof.
  unfold shows. now rewrite filter_app, length_app.
Qed.

(** [hideCursor] touches neither the tracked output nor the cache, and
    writes nothing to the stream. *)
Lemma standard_hideCursor_frame (sc : bool) (st : Standard.state) :
  Standard.previousOutput (fst (Standard.hideCursor sc st))
  = Standard.previousOutput st
  /\ Standard.previousLineCount (fst (Standard.hideCursor sc st))
     = Standard.previousLineCount st
  /\ stream_writes (snd (Standard.hideCursor sc st)) = [].
Proof.
  unfold Standard.hideCursor.
  destruct (negb sc && negb (Standard.hasHiddenCursor st)); auto.
Qed.

Lemma incremental_hideCursor_frame (sc : bool) (st : Incremental.state) :
  Incremental.previousOutput (fst (Incremental.hideCursor sc st))
  = Incremental.previousOutput st
  /\ Incremental.previousLines (fst (Incremental.hideCursor sc st))
     = Incremental.previousLines st
  /\ stream_writes (snd (Incremental.hideCursor sc st)) = [].
Proof.
  unfold Incremental.hideCursor.
  destruct (negb sc && negb (Incremental.hasHiddenCursor st)); auto.
Qed.

(** The equations of [render], with the head of the function factored out. *)
Lemma standard_render_eq (sc : bool) (st : Standard.state) (str : string) :
  Standard.render sc st str =
  let st1 := fst (Standard.hideCursor sc st) in
  let evs := snd (Standard.hideCursor sc st) in
  if String.eqb str (Standard.previousOutput st) then (st1, evs)
  else
    ({| Standard.previousLineCount := Z.of_nat (List.length (Js.split str));
        Standard.previousOutput := str;
        Standard.hasHiddenCursor := Standard.hasHiddenCursor st1 |},
     evs ++ [Write (eraseLines (Standard.previousLineCount st) ++ str)%string]).
Proof.
  unfold Standard.render.
  destruct (standard_hideCursor_frame sc st) as (Ho & Hc & _).
  destruct (Standard.hideCursor sc st) as [st1 evs]; simpl in *.
  now rewrite Ho, Hc.
Qed.

Lemma incremental_render_eq (sc : bool) (st : Incremental.state) (str : string) :
  Incremental.render sc st str =
  let st1 := fst (Incremental.hideCursor sc st) in
  let evs := snd (Incremental.hideCursor sc st) in
  let previousCount := Z.of_nat (List.length (Incremental.previousLines st)) in
  let nextLines := Js.split str in
  let nextCount := Z.of_nat (List.length nextLines) in
  let after :=
    {| Incremental.previousLines := nextLines;
       Incremental.previousOutput := str;
       Incremental.hasHiddenCursor := Incremental.hasHiddenCursor st1 |} in
  if String.eqb str (Incremental.previousOutput st) then (st1, evs)
  else if String.eqb str "" || String.eqb (Incremental.previousOutput st) ""
  then (after, evs ++ [Write (eraseLines previousCount ++ str)%string])
  else
    (after,
     evs ++ [Write (Js.join
                      (Incremental.diffLines (List.length nextLines) 0 nextLines
                         (Incremental.previousLines st) nextCount
                         (Incremental.positionCursor previousCount nextCount)))]).
Proof.
  unfold Incremental.render.
  destruct (incremental_hideCursor_frame sc st) as (Ho & Hc & _).
  destruct (Incremental.hideCursor sc st) as [st1 evs]; simpl in *.
  now rewrite Ho, Hc, length_zero_iff.
Qed.

End RendererFacts.

Section RendererClaims.
Context {ansi : AnsiEscapes}.

(** Rendering the tracked output again: nothing is written, and neither
    the tracked output nor the cache changes. *)
Lemma render_tracked_output (r : LogUpdate) :
  stream_writes (snd (render r (previousOutputOf r))) = []
  /\ previousOutputOf (fst (render r (previousOutputOf r))) = previousOutputOf r
  /\ lineCacheOf (fst (render r (previousOutputOf r))) = lineCacheOf r.
Proof.
  destruct r as [sc st | sc st]; simpl.
  - rewrite standard_render_eq; simpl. rewrite String.eqb_refl; simpl.
    destruct (standard_hideCursor_frame sc st) as (Ho & Hc & Hw).
    now rewrite Ho, Hc, Hw.
  - rewrite incremental_render_eq; simpl. rewrite String.eqb_refl; simpl.
    destruct (incremental_hideCursor_frame sc st) as (Ho & Hc & Hw).
    now rewrite Ho, Hc, Hw.
Qed.

(** After [render(str)] the tracked output is [str]. *)
Lemma render_tracks (r : LogUpdate) (str : string) :
  previousOutputOf (fst (render r str)) = str.
Proof.
  destruct r as [sc st | sc st]; simpl.
  - rewrite standard_render_eq; simpl.
    destruct (String.eqb_spec str (Standard.previousOutput st)) as [E|E]; simpl; auto.
    destruct (standard_hideCursor_frame sc st) as (Ho & _). now rewrite Ho.
  - rewrite incremental_render_eq; simpl.
    destruct (String.eqb_spec str (Incremental.previousOutput st)) as [E|E]; simpl.
    + destruct (incremental_hideCursor_frame sc st) as (Ho & _). now rewrite Ho.
    + destruct (String.eqb str "" || String.eqb (Incremental.previousOutput st) "");
        reflexivity.
Qed.

(** After [sync(str)] the tracked output is [str], and nothing happened. *)
Lemma sync_tracks (r : LogUpdate) (str : string) :
  previousOutputOf (fst (sync r str)) = str /\ snd (sync r str) = [].
Proof.
  destruct r; simpl; auto.
Qed.

Lemma run_cons (r : LogUpdate) (c : call) (calls : list call) :
  run r (c :: calls) =
  (fst (run (fst (perform r c)) calls),
   snd (perform r c) ++ snd (run (fst (perform r c)) calls)).
Proof.
  simpl. destruct (perform r c) as [r1 evs1]; simpl.
  now destruct (run r1 calls).
Qed.

(** C1. For every renderer, standard or incremental, [render(next)] with
    [next] equal to the tracked previous output writes nothing to the
    stream and leaves the tracked output and the line cache as they are.
    Hence the second of two renders of the same text is a no-op, the two
    together write what the first one writes, and a render of the text just
    synced writes nothing. *)
Theorem render_unchanged_is_noop (r : LogUpdate) (next : string) :
  (stream_writes (snd (render r (previousOutputOf r))) = []
   /\ previousOutputOf (fst (render r (previousOutputOf r))) = previousOutputOf r
   /\ lineCacheOf (fst (render r (previousOutputOf r))) = lineCacheOf r)
  /\ (let r1 := fst (render r next) in
      stream_writes (snd (render r1 next)) = []
      /\ previousOutputOf (fst (render r1 next)) = previousOutputOf r1
      /\ lineCacheOf (fst (render r1 next)) = lineCacheOf r1
      /\ stream_writes (snd (run r [Render next; Render next]))
         = stream_writes (snd (render r next)))
  /\ (let r1 := fst (sync r next) in
      stream_writes (snd (render r1 next)) = []
      /\ previousOutputOf (fst (render r1 next)) = previousOutputOf r1
      /\ lineCacheOf (fst (render r1 next)) = lineCacheOf r1).
Proof.
  split; [apply render_tracked_output|]. split; cbv zeta.
  - pose proof (render_tracks r next) as Ht.
    pose proof (render_tracked_output (fst (render r next))) as Hn.
    rewrite Ht in Hn. destruct Hn as (Hw & Ho & Hc).
    repeat split; auto; [congruence|].
    rewrite !run_cons; simpl.
    rewrite !stream_writes_app, Hw. now rewrite app_nil_r.
  - destruct (sync_tracks r next) as (Ht & _).
    pose proof (render_tracked_output (fst (sync r next))) as Hn.
    rewrite Ht in Hn. destruct Hn as (Hw & Ho & Hc).
    repeat split; auto; congruence.
Qed.

(** Every call leaves the cache consistent with the tracked output. *)
Lemma perform_consistent (r : LogUpdate) (c : call) :
  consistent r -> consistent (fst (perform r c)).
Proof.
  unfold consistent. intros Hr.
  destruct c as [str| | |str]; destruct r as [sc st | sc st]; simpl in *;
    try contradiction; try reflexivity.
  - rewrite standard_render_eq; cbv zeta.
    destruct (standard_hideCursor_frame sc st) as (Ho & Hc & _).
    destruct (String.eqb str (Standard.previousOutput st)); simpl; auto.
    rewrite Ho, Hc. exact Hr.
  - rewrite incremental_render_eq; cbv zeta.
    destruct (incremental_hideCursor_frame sc st) as (Ho & Hc & _).
    destruct (String.eqb str (Incremental.previousOutput st)); simpl.
    + rewrite Ho, Hc. exact Hr.
    + destruct (String.eqb str "" || String.eqb (Incremental.previousOutput st) "");
        simpl; auto.
  - unfold Standard.done. destruct (negb sc); simpl; intros E; now elim E.
  - unfold Incremental.done. destruct (negb sc); simpl; intros E; now elim E.
Qed.

Lemma run_consistent (calls : list call) (r : LogUpdate) :
  consistent r -> consistent (fst (run r calls)).
Proof.
  revert r. induction calls as [|c calls IH]; intros r Hr; [exact Hr|].
  rewrite run_cons; simpl. apply IH. now apply perform_consistent.
Qed.

Lemma create_reset (showCursor incremental : bool) :
  previousOutputOf (create showCursor incremental) = ""
  /\ cacheIsReset (lineCacheOf (create showCursor incremental)).
Proof.
  destruct incremental; simpl; auto.
Qed.

Lemma clear_reset (r : LogUpdate) :
  previousOutputOf (fst (clear r)) = ""
  /\ cacheIsReset (lineCacheOf (fst (clear r))).
Proof.
  destruct r; simpl; auto.
Qed.

Lemma done_reset (r : LogUpdate) :
  previousOutputOf (fst (done r)) = ""
  /\ cacheIsReset (lineCacheOf (fst (done r))).
Proof.
  destruct r as [sc st | sc st]; simpl.
  - unfold Standard.done. destruct (negb sc); simpl; auto.
  - unfold Incremental.done. destruct (negb sc); simpl; auto.
Qed.

(** C8. In each variant, whenever the tracked previous output is not
    empty, the cached line count (standard) is the number of lines of that
    output and the cached lines (incremental) are that output split at the
    newlines.  Every operation ([render], [clear], [done], [sync])
    preserves this, so it holds of a renderer after any sequence of calls;
    a new renderer and one after [clear] or [done] are in the reset state:
    empty output, count 0 or no lines. *)
Theorem line_cache_consistent :
  (forall showCursor incremental,
      previousOutputOf (create showCursor incremental) = ""
      /\ cacheIsReset (lineCacheOf (create showCursor incremental)))
  /\ (forall r c, consistent r -> consistent (fst (perform r c)))
  /\ (forall r,
         (previousOutputOf (fst (clear r)) = ""
          /\ cacheIsReset (lineCacheOf (fst (clear r))))
         /\ (previousOutputOf (fst (done r)) = ""
             /\ cacheIsReset (lineCacheOf (fst (done r)))))
  /\ (forall showCursor incremental calls,
         consistent (fst (run (create showCursor incremental) calls))).
Proof.
  split; [exact create_reset|].
  split; [exact perform_consistent|].
  split; [intros r; split; [apply clear_reset | apply done_reset]|].
  intros sc inc calls. apply run_consistent.
  intros Hne. now destruct (create_reset sc inc).
Qed.

(* ------------------------------------------------------------------ *)
(** *** The cursor *)

Lemma hides_writes (chunks : list string) : hides (map Write chunks) = 0%nat.
Proof.
  induction chunks; simpl; auto.
Qed.

Lemma shows_writes (chunks : list string) : shows (map Write chunks) = 0%nat.
Proof.
  induction chunks; simpl; auto.
Qed.

(** What [render] does about the cursor: it hides it first, if it is to be
    hidden and is not yet; everything after that is a write. *)
Lemma render_cursor (r : LogUpdate) (str : string) :
  showCursorOf (fst (render r str)) = showCursorOf r
  /\ hasHiddenCursorOf (fst (render r str))
     = (hasHiddenCursorOf r || negb (showCursorOf r))
  /\ exists chunks,
       snd (render r str) =
       (if negb (showCursorOf r) && negb (hasHiddenCursorOf r)
        then [CursorHide] else []) ++ map Write chunks
       /\ (str = previousOutputOf r -> chunks = []).
Proof.
  destruct r as [sc [n out h] | sc [ls out h]]; simpl.
  - rewrite standard_render_eq; cbv zeta. unfold Standard.hideCursor. simpl.
    destruct (String.eqb_spec str out) as [E|E];
      destruct sc, h; simpl;
      (split; [reflexivity|split; [reflexivity|]]);
      (eexists [] + eexists [_]); simpl; split; (reflexivity || tauto).
  - rewrite incremental_render_eq; cbv zeta. unfold Incremental.hideCursor.
    simpl.
    destruct (String.eqb_spec str out) as [E|E];
      [|destruct (String.eqb str "" || String.eqb out "")];
      destruct sc, h; simpl;
      (split; [reflexivity|split; [reflexivity|]]);
      (eexists [] + eexists [_]); simpl; split; (reflexivity || tauto).
Qed.

(** [clear] and [sync] do not touch the cursor. *)
Lemma quiet_cursor (r : LogUpdate) (c : call) :
  c = Clear \/ (exists str, c = Sync str) ->
  showCursorOf (fst (perform r c)) = showCursorOf r
  /\ hasHiddenCursorOf (fst (perform r c)) = hasHiddenCursorOf r
  /\ hides (snd (perform r c)) = 0%nat
  /\ shows (snd (perform r c)) = 0%nat.
Proof.
  intros [->|[str ->]]; destruct r; simpl; auto.
Qed.

(** [done] shows the cursor exactly when [showCursor] is off. *)
Lemma done_cursor (r : LogUpdate) :
  showCursorOf (fst (done r)) = showCursorOf r
  /\ hasHiddenCursorOf (fst (done r))
     = (showCursorOf r && hasHiddenCursorOf r)
  /\ hides (snd (done r)) = 0%nat
  /\ shows (snd (done r)) = (if showCursorOf r then 0 else 1)%nat
  /\ stream_writes (snd (done r))
     = (if String.eqb (previousOutputOf r) "" then [] else [Js.newline]).
Proof.
  destruct r as [sc st | sc st]; simpl.
  - unfold Standard.done. rewrite length_positive_iff.
    destruct sc, (String.eqb (Standard.previousOutput st) ""); simpl; auto.
  - unfold Incremental.done. rewrite length_positive_iff.
    destruct sc, (String.eqb (Incremental.previousOutput st) ""); simpl; auto.
Qed.

(** Once the cursor is hidden, no call but [done] touches it. *)
Lemma hidden_stays (calls : list call) (r : LogUpdate) :
  hasHiddenCursorOf r = true ->
  Forall (fun c => c <> Done) calls ->
  hides (snd (run r calls)) = 0%nat
  /\ hasHiddenCursorOf (fst (run r calls)) = true.
Proof.
  revert r. induction calls as [|c calls IH]; intros r Hh Hc; [now simpl|].
  inversion Hc as [|? ? Hn Hrest]; subst.
  rewrite run_cons; simpl. rewrite hides_app.
  assert (hides (snd (perform r c)) = 0%nat
          /\ hasHiddenCursorOf (fst (perform r c)) = true) as [H0 H1].
  { destruct c as [str| | |str]; simpl.
    - destruct (render_cursor r str) as (_ & Hf & chunks & He & _).
      rewrite Hf, He, Hh, andb_false_r; simpl. split; auto using hides_writes.
    - pose proof (quiet_cursor r (or_introl eq_refl)) as (_ & Hf & H0 & _).
      simpl in *. now rewrite Hf.
    - now elim Hn.
    - pose proof (quiet_cursor r (or_intror (ex_intro _ str eq_refl)))
        as (_ & Hf & H0 & _).
      simpl in *. now rewrite Hf. }
  destruct (IH _ H1 Hrest) as [H2 H3]. now rewrite H0, H2.
Qed.

(** Before the first [render], [clear] and [sync] leave the cursor alone. *)
Lemma quiet_run (calls : list call) (r : LogUpdate) :
  Forall (fun c => c = Clear \/ exists str, c = Sync str) calls ->
  showCursorOf (fst (run r calls)) = showCursorOf r
  /\ hasHiddenCursorOf (fst (run r calls)) = hasHiddenCursorOf r
  /\ hides (snd (run r calls)) = 0%nat.
Proof.
  revert r. induction calls as [|c calls IH]; intros r Hc; [now simpl|].
  inversion Hc as [|? ? Hq Hrest]; subst.
  rewrite run_cons; simpl. rewrite hides_app.
  destruct (quiet_cursor r Hq) as (Hs & Hf & H0 & _).
  destruct (IH (fst (perform r c)) Hrest) as (Hs' & Hf' & H0').
  rewrite Hs', Hf', H0', H0, Hs, Hf. auto.
Qed.

(** C9. With [showCursor] off, the first [render] after the construction
    of a renderer or after [done()] hides the cursor before anything else,
    also when its argument is the tracked previous output (then that is all
    it does), and no later call hides it again as long as [done()] is not
    called.  Calls of [clear] and [sync] before that first [render] do not
    hide the cursor either. *)
Theorem cursor_hidden_once (r : LogUpdate) (before after : list call)
  (str : string) :
  (exists incremental, r = create false incremental)
  \/ (exists r0, showCursorOf r0 = false /\ r = fst (done r0)) ->
  Forall (fun c => c = Clear \/ exists s, c = Sync s) before ->
  Forall (fun c => c <> Done) after ->
  let r1 := fst (run r before) in
  hides (snd (run r before)) = 0%nat
  /\ (exists chunks, snd (render r1 str) = CursorHide :: map Write chunks)
  /\ snd (render r1 (previousOutputOf r1)) = [CursorHide]
  /\ hides (snd (run (fst (render r1 str)) after)) = 0%nat.
Proof.
  intros Hfresh Hbefore Hafter r1.
  assert (showCursorOf r = false /\ hasHiddenCursorOf r = false) as [Hs Hh].
  { destruct Hfresh as [[inc ->]|(r0 & Hs0 & ->)].
    - destruct inc; auto.
    - destruct (done_cursor r0) as (Hs & Hf & _). rewrite Hs, Hf, Hs0. auto. }
  destruct (quiet_run r Hbefore) as (Hs1 & Hh1 & H0).
  fold r1 in Hs1, Hh1. rewrite Hs in Hs1. rewrite Hh in Hh1.
  split; [exact H0|].
  destruct (render_cursor r1 str) as (_ & Hf & chunks & He & _).
  rewrite Hs1, Hh1 in He, Hf. simpl in He, Hf.
  split; [now exists chunks|].
  destruct (render_cursor r1 (previousOutputOf r1)) as (_ & _ & chunks' & He' & Hnil).
  rewrite Hs1, Hh1, (Hnil eq_refl) in He'. simpl in He'.
  split; [exact He'|].
  now apply hidden_stays.
Qed.

(** A renderer never holds the cursor hidden when [showCursor] is on. *)
Lemma hidden_only_if_asked (calls : list call) (r : LogUpdate) :
  (hasHiddenCursorOf r = true -> showCursorOf r = false) ->
  hasHiddenCursorOf (fst (run r calls)) = true ->
  showCursorOf (fst (run r calls)) = false.
Proof.
  revert r. induction calls as [|c calls IH]; intros r Hr; [exact Hr|].
  rewrite run_cons; simpl. apply IH.
  destruct c as [str| | |str]; simpl.
  - destruct (render_cursor r str) as (Hs & Hf & _). rewrite Hs, Hf.
    destruct (showCursorOf r), (hasHiddenCursorOf r); simpl; auto.
  - pose proof (quiet_cursor r (or_introl eq_refl)) as (Hs & Hf & _).
    simpl in *. now rewrite Hs, Hf.
  - destruct (done_cursor r) as (Hs & Hf & _). rewrite Hs, Hf.
    destruct (showCursorOf r), (hasHiddenCursorOf r); simpl; auto.
  - pose proof (quiet_cursor r (or_intror (ex_intro _ str eq_refl)))
      as (Hs & Hf & _).
    simpl in *. now rewrite Hs, Hf.
Qed.

(** C5, as amended.  For both variants, [done()] writes exactly one
    newline to the stream if the tracked output is not empty and nothing
    otherwise, and resets the state to nothing rendered.  It shows the
    cursor exactly when the renderer was made with [showCursor] off: so
    whenever this renderer had hidden the cursor, which then counts as
    shown again, but also when it had not hidden it yet. *)
Theorem done_finishes :
  (forall r,
      stream_writes (snd (done r))
      = (if String.eqb (previousOutputOf r) "" then [] else [Js.newline])
      /\ previousOutputOf (fst (done r)) = ""
      /\ cacheIsReset (lineCacheOf (fst (done r)))
      /\ shows (snd (done r)) = (if showCursorOf r then 0 else 1)%nat
      /\ hides (snd (done r)) = 0%nat
      /\ hasHiddenCursorOf (fst (done r))
         = (showCursorOf r && hasHiddenCursorOf r))
  /\ (forall showCursor incremental calls,
         let r := fst (run (create showCursor incremental) calls) in
         hasHiddenCursorOf r = true ->
         shows (snd (done r)) = 1%nat
         /\ hasHiddenCursorOf (fst (done r)) = false).
Proof.
  split.
  - intros r. destruct (done_cursor r) as (_ & Hf & Hh & Hs & Hw).
    destruct (done_reset r) as (Ho & Hc). auto 10.
  - intros sc inc calls r Hh.
    assert (showCursorOf r = false) as Hs.
    { apply hidden_only_if_asked; auto. destruct inc; discriminate. }
    destruct (done_cursor r) as (_ & Hf & _ & Hshow & _).
    rewrite Hf, Hshow, Hs. auto.
Qed.

(* ------------------------------------------------------------------ *)
(** *** The incremental renderer against the standard one *)

Lemma hideCursor_asStandard (sc : bool) (st : Incremental.state) :
  Standard.hideCursor sc (asStandard st)
  = (asStandard (fst (Incremental.hideCursor sc st)),
     snd (Incremental.hideCursor sc st)).
Proof.
  unfold Standard.hideCursor, Incremental.hideCursor, asStandard; simpl.
  destruct (negb sc && negb (Incremental.hasHiddenCursor st)); reflexivity.
Qed.

(** C4. In incremental mode, a [render(next)] with an empty tracked
    output or an empty [next] is the transition of the standard renderer
    that tracks the same screen: the same events and the same state after.
    Past the check for an unchanged text, that is, when [next] differs
    from the tracked output, it is one write, of the erase of the previous
    line count followed by [next] in full, and no line is compared. *)
Theorem incremental_falls_back (showCursor : bool) (st : Incremental.state)
  (next : string) :
  Incremental.previousOutput st = "" \/ next = "" ->
  Standard.render showCursor (asStandard st) next
  = (asStandard (fst (Incremental.render showCursor st next)),
     snd (Incremental.render showCursor st next))
  /\ (next <> Incremental.previousOutput st ->
      stream_writes (snd (Incremental.render showCursor st next))
      = [(eraseLines (Z.of_nat (List.length (Incremental.previousLines st)))
          ++ next)%string]
      /\ Incremental.previousOutput (fst (Incremental.render showCursor st next))
         = next
      /\ Incremental.previousLines (fst (Incremental.render showCursor st next))
         = Js.split next).
Proof.
  intros Hempty.
  assert (String.eqb next "" || String.eqb (Incremental.previousOutput st) ""
          = true) as Hfallback.
  { destruct Hempty as [E|E]; rewrite E; simpl; auto using orb_true_r. }
  rewrite standard_render_eq, incremental_render_eq; cbv zeta.
  rewrite hideCursor_asStandard, Hfallback; simpl.
  destruct (incremental_hideCursor_frame showCursor st) as (_ & _ & Hw).
  destruct (String.eqb_spec next (Incremental.previousOutput st)) as [E|E]; simpl.
  - split; [reflexivity|]. intros Hne. now elim Hne.
  - split; [reflexivity|]. intros _.
    rewrite stream_writes_app, Hw. simpl. auto.
Qed.

(* ------------------------------------------------------------------ *)
(** *** The line-by-line update *)

Lemma nullish_nth (lines : list string) (i : nat) :
  Js.nullish (nth_error lines i) "" = nth i lines "".
Proof.
  revert i. induction lines as [|l lines IH]; intros [|i]; simpl; auto.
Qed.

(** One iteration of the loop emits the update of its line. *)
Lemma diffLines_step (nextLines previousLines buffer : list string) (i : nat) :
  (i < List.length nextLines)%nat ->
  (let changed := Incremental.contentChanged nextLines previousLines i in
   let buffer1 :=
     if changed
     then buffer ++ [eraseLine; Js.nullish (nth_error nextLines i) ""]
     else buffer in
   if Z.of_nat i <? Z.of_nat (List.length nextLines) - 1
   then buffer1 ++ [if changed then Js.newline else cursorNextLine]
   else buffer1)
  = buffer ++ lineUpdate nextLines previousLines i.
Proof.
  intros Hi. cbv zeta. unfold Incremental.contentChanged, lineUpdate.
  rewrite nullish_nth.
  destruct (Z.ltb_spec (Z.of_nat i) (Z.of_nat (List.length nextLines) - 1)) as [Hlt|Hge];
    destruct (Nat.eqb_spec (S i) (List.length nextLines)) as [He|Hne];
    try lia;
    destruct (Js.strict_eq (nth_error nextLines i) (nth_error previousLines i));
    simpl; rewrite <- ?app_assoc, ?app_nil_r; reflexivity.
Qed.

(** The loop emits the updates of its lines in order, after what the
    buffer holds already. *)
Lemma diffLines_spec (todo : nat) :
  forall (i : nat) (nextLines previousLines buffer : list string),
    (i + todo <= List.length nextLines)%nat ->
    Incremental.diffLines todo i nextLines previousLines
      (Z.of_nat (List.length nextLines)) buffer
    = buffer ++ flat_map (lineUpdate nextLines previousLines) (seq i todo).
Proof.
  induction todo as [|todo IH]; intros i nextLines previousLines buffer Hi.
  - simpl. now rewrite app_nil_r.
  - cbn [Incremental.diffLines seq flat_map].
    rewrite diffLines_step by lia.
    rewrite IH by lia. now rewrite <- app_assoc.
Qed.

(** C3. In incremental mode, a [render(next)] with a non-empty tracked
    output and a non-empty [next] that differs from it writes once: the
    cursor positioning, then for each line of [next] in order its update.
    A line equal to the previous line of the same index is neither erased
    nor written again: its update is the move to the next line and nothing
    else (nothing at all for the last line).  Any other line is erased and
    its new content written, followed by a real newline unless it is the
    last line; so a newline only ever follows a rewritten line. *)
Theorem incremental_line_updates (showCursor : bool) (st : Incremental.state)
  (next : string) :
  Incremental.previousOutput st <> "" ->
  next <> "" ->
  next <> Incremental.previousOutput st ->
  let nextLines := Js.split next in
  let previousLines := Incremental.previousLines st in
  stream_writes (snd (Incremental.render showCursor st next))
  = [Js.join
       (Incremental.positionCursor (Z.of_nat (List.length previousLines))
          (Z.of_nat (List.length nextLines))
        ++ flat_map (lineUpdate nextLines previousLines)
             (seq 0 (List.length nextLines)))]
  /\ forall i line,
       nth_error nextLines i = Some line ->
       let last := Nat.eqb (S i) (List.length nextLines) in
       (nth_error previousLines i = Some line ->
        lineUpdate nextLines previousLines i
        = if last then [] else [cursorNextLine])
       /\ (nth_error previousLines i <> Some line ->
           lineUpdate nextLines previousLines i
           = eraseLine :: line :: (if last then [] else [Js.newline])).
Proof.
  intros Hprev Hnext Hdiff nextLines previousLines. split.
  - rewrite incremental_render_eq; cbv zeta.
    destruct (String.eqb_spec next (Incremental.previousOutput st)) as [E|_];
      [contradiction|].
    destruct (String.eqb_spec next "") as [E|_]; [contradiction|].
    destruct (String.eqb_spec (Incremental.previousOutput st) "") as [E|_];
      [contradiction|].
    simpl. rewrite stream_writes_app.
    destruct (incremental_hideCursor_frame showCursor st) as (_ & _ & ->).
    simpl. now rewrite diffLines_spec by lia.
  - intros i line Hline last. unfold lineUpdate. fold last.
    rewrite Hline, (nth_error_nth _ _ _ Hline). split.
    + intros ->. simpl. now rewrite String.eqb_refl.
    + intros Hother.
      destruct (nth_error previousLines i) as [old|] eqn:Hold; simpl; auto.
      destruct (String.eqb_spec line old) as [->|_]; [now elim Hother|auto].
Qed.

End RendererClaims.

(* ================================================================== *)
(** * Properties of the handle of [Box] *)

(** Induction along the parents of a node. *)
Lemma DOMElement_parent_ind (P : DOMElement -> Prop)
  (Hroot : forall yoga children, P (mkElement yoga None children))
  (Hchild : forall yoga parent children,
      P parent -> P (mkElement yoga (Some parent) children)) :
  forall node, P node.
Proof.
  fix IH 1. intros [yoga [parent|] children].
  - apply Hchild, IH.
  - apply Hroot.
Qed.

(** Induction over the subtree of a node. *)
Lemma DOMElement_children_ind (P : DOMElement -> Prop)
  (Hnode : forall yoga parent children,
      Forall P children -> P (mkElement yoga parent children)) :
  forall node, P node.
Proof.
  fix IH 1. intros [yoga parent children]. apply Hnode.
  induction children as [|child children IHchildren]; constructor.
  - apply IH.
  - exact IHchildren.
Qed.

(* ------------------------------------------------------------------ *)
(** *** Overflow *)

(** C10. [Box] resolves each overflow axis by precedence: the value given
    for the axis if there is one, else the shorthand [overflow] if there is
    one, else [visible].  So [overflow='scroll'] alone makes both axes
    [scroll], and a value given for an axis wins on this axis over the
    shorthand.  An axis resolved to [scroll] makes a scroll container. *)
Theorem overflow_precedence :
  (forall style,
      overflowX (Box.boxStyle style)
      = Some match overflowX style, overflow style with
             | Some axis, _ => axis
             | None, Some shorthand => shorthand
             | None, None => visible
             end
      /\ overflowY (Box.boxStyle style)
         = Some match overflowY style, overflow style with
                | Some axis, _ => axis
                | None, Some shorthand => shorthand
                | None, None => visible
                end)
  /\ Box.boxStyle {| overflow := Some scroll; overflowX := None;
                     overflowY := None |}
     = {| overflow := Some scroll; overflowX := Some scroll;
          overflowY := Some scroll |}
  /\ (forall shorthand axis other,
         overflowX (Box.boxStyle {| overflow := shorthand;
                                    overflowX := Some axis;
                                    overflowY := other |}) = Some axis
         /\ overflowY (Box.boxStyle {| overflow := shorthand;
                                       overflowX := other;
                                       overflowY := Some axis |}) = Some axis)
  /\ (forall style,
         Box.isScrollContainer style
         = Box.is_scroll (overflow style)
           || Box.is_scroll (overflowX (Box.boxStyle style))
           || Box.is_scroll (overflowY (Box.boxStyle style))).
Proof.
  split; [|split; [reflexivity|split; [intros; split; reflexivity|]]].
  - intros [[o|] [ox|] [oy|]]; split; reflexivity.
  - intros [[[]|] [[]|] [[]|]]; reflexivity.
Qed.

(* ------------------------------------------------------------------ *)
(** *** Scrolling *)

Lemma getMaxScroll_nonneg (element : DOMElement) :
  0 <= x (Box.getMaxScroll element) /\ 0 <= y (Box.getMaxScroll element).
Proof.
  unfold Box.getMaxScroll. destruct (yogaNode element); simpl; lia.
Qed.

(** [Math.max(0, Math.min(v, m))] clamps every number but NaN. *)
Lemma clamp_clampedInto (m : Z) (v : number) :
  0 <= m -> v <> NaN ->
  clampedInto m v (Math.max (Num 0) (Math.min v (Num m))).
Proof.
  intros Hm Hv. unfold clampedInto.
  destruct v as [z| | |]; simpl; [| | |now elim Hv].
  - exists (Z.max 0 (Z.min z m)). repeat split; try lia.
    intros H0 H1. f_equal. lia.
  - exists (Z.max 0 m). repeat split; try lia; tauto.
  - exists 0. repeat split; try lia; tauto.
Qed.

(** C2, as amended.  For every scroll container, [scrollTo({x?, y?})]
    clamps each axis value that is given and is a number other than NaN,
    finite or infinite, into the range from 0 to the maximal scroll of
    that axis: a value above the maximum is stored as the maximum, a value
    below 0 as 0, a value in between as it is.  An axis that is omitted
    keeps its position.  The new position is copied to the element and
    the scroll version goes up by one. *)
Theorem scrollTo_clamps (element : DOMElement) (vx vy : option number)
  (st : Box.state) :
  let maxScroll := Box.getMaxScroll element in
  let st' :=
    Box.scrollTo element {| option_x := vx; option_y := vy |} st in
  (vx <> Some NaN ->
   match vx with
   | Some v => clampedInto (x maxScroll) v (x (Box.scrollStateRef st'))
   | None => x (Box.scrollStateRef st') = x (Box.scrollStateRef st)
   end)
  /\ (vy <> Some NaN ->
      match vy with
      | Some v => clampedInto (y maxScroll) v (y (Box.scrollStateRef st'))
      | None => y (Box.scrollStateRef st') = y (Box.scrollStateRef st)
      end)
  /\ Box.internal_scrollOffset st' = Some (Box.scrollStateRef st')
  /\ Box.scrollVersion st' = Box.scrollVersion st + 1.
Proof.
  intros maxScroll st'.
  destruct (getMaxScroll_nonneg element) as [Hx Hy].
  unfold st', Box.scrollTo; simpl.
  repeat split.
  - intros Hv. destruct vx as [v|]; destruct vy as [w|]; simpl;
      try reflexivity; apply clamp_clampedInto; auto; congruence.
  - intros Hv. destruct vy as [w|]; destruct vx as [v|]; simpl;
      try reflexivity; apply clamp_clampedInto; auto; congruence.
Qed.

(* ------------------------------------------------------------------ *)
(** *** Bounds *)

(** The loop of [getBounds] adds the coordinates of the ancestors up to
    the first one without geometry. *)
Lemma addParents_spec (parent : DOMElement) :
  forall x0 y0,
    Box.addParents parent x0 y0
    = (x0 + sum (map leftOf (laidOutPrefix (parent :: ancestors parent))),
       y0 + sum (map topOf (laidOutPrefix (parent :: ancestors parent)))).
Proof.
  induction parent as [yoga children | yoga parent children IH]
    using DOMElement_parent_ind; intros x0 y0.
  - destruct yoga as [yoga|]; simpl; f_equal; unfold leftOf, topOf; simpl; lia.
  - destruct yoga as [yoga|].
    + cbn [Box.addParents]. rewrite IH.
      cbn [ancestors laidOutPrefix hasGeometry yogaNode map sum fold_right].
      unfold leftOf at 2, topOf at 2. cbn [yogaNode].
      fold (sum (map leftOf (laidOutPrefix (parent :: ancestors parent)))).
      fold (sum (map topOf (laidOutPrefix (parent :: ancestors parent)))).
      f_equal; lia.
    + simpl. f_equal; lia.
Qed.

Lemma laidOutPrefix_all (nodes : list DOMElement) :
  forallb hasGeometry nodes = true -> laidOutPrefix nodes = nodes.
Proof.
  induction nodes as [|node nodes IH]; simpl; auto.
  destruct (hasGeometry node); simpl; [|discriminate].
  intros H. now rewrite IH.
Qed.

(** C7, as amended.  For every node with computed geometry, [getBounds()]
    returns the width and height of the node, and as [x] and [y] its own
    coordinate plus the coordinates of its ancestors from its parent
    upwards as far as they have geometry: the sum ends at the root or at
    the first ancestor without geometry, which adds nothing, as do all
    ancestors above it.  When every ancestor has geometry this is the sum
    over all ancestors up to the root. *)
Theorem getBounds_sums_ancestors (element : DOMElement) (yoga : YogaNode) :
  yogaNode element = Some yoga ->
  Box.getBounds element
  = {| bounds_x :=
         getComputedLeft yoga
         + sum (map leftOf (laidOutPrefix (ancestors element)));
       bounds_y :=
         getComputedTop yoga
         + sum (map topOf (laidOutPrefix (ancestors element)));
       bounds_width := getComputedWidth yoga;
       bounds_height := getComputedHeight yoga |}
  /\ (forallb hasGeometry (ancestors element) = true ->
      Box.getBounds element = claimed_getBounds element).
Proof.
  intros Hyoga.
  assert (Box.getBounds element
          = {| bounds_x :=
                 getComputedLeft yoga
                 + sum (map leftOf (laidOutPrefix (ancestors element)));
               bounds_y :=
                 getComputedTop yoga
                 + sum (map topOf (laidOutPrefix (ancestors element)));
               bounds_width := getComputedWidth yoga;
               bounds_height := getComputedHeight yoga |}) as Hbounds.
  { unfold Box.getBounds. rewrite Hyoga.
    destruct element as [yo [parent|] children]; simpl.
    - rewrite addParents_spec. reflexivity.
    - f_equal; lia. }
  split; [exact Hbounds|].
  intros Hall. rewrite Hbounds. unfold claimed_getBounds. rewrite Hyoga.
  now rewrite (laidOutPrefix_all _ Hall).
Qed.

(* ------------------------------------------------------------------ *)
(** *** The extent of the content *)

Lemma fold_left_max_greatest (zs : list Z) :
  forall a, 0 <= a -> fold_left Z.max zs a = Z.max a (greatest zs).
Proof.
  induction zs as [|z zs IH]; intros a Ha; simpl.
  - lia.
  - rewrite IH by lia. lia.
Qed.

(** [greatest] is the maximum of the list and 0. *)
Lemma greatest_is_max (zs : list Z) :
  0 <= greatest zs
  /\ (forall z, In z zs -> z <= greatest zs)
  /\ (greatest zs = 0 \/ In (greatest zs) zs).
Proof.
  induction zs as [|z zs (H0 & Hle & Hin)]; simpl.
  - split; [lia|]. split; [tauto|now left].
  - split; [lia|]. split.
    + intros w [<-|Hw]; [lia|]. specialize (Hle w Hw). lia.
    + destruct (Z.max_spec z (greatest zs)) as [[_ ->]|[_ ->]]; [|now right; left].
      destruct Hin as [->|Hin]; [now left|now right; right].
Qed.

(** [measureNode] raises the two maxima over the edges of the descendants
    it is connected to. *)
Lemma measureNode_edges (node : DOMElement) :
  forall offsetX offsetY acc,
    Box.measureNode node offsetX offsetY acc
    = {| width :=
           fold_left Z.max (map fst (laidOutEdges node offsetX offsetY))
             (width acc);
         height :=
           fold_left Z.max (map snd (laidOutEdges node offsetX offsetY))
             (height acc) |}.
Proof.
  induction node as [yoga parent children IH] using DOMElement_children_ind.
  intros offsetX offsetY. cbn [Box.measureNode laidOutEdges].
  induction IH as [|child children Hchild _ IHchildren]; intros acc.
  - now destruct acc.
  - destruct child as [[childYoga|] childParent grandchildren].
    + cbn [flat_map]. rewrite IHchildren, Hchild.
      cbn [width height]. rewrite !map_app, !fold_left_app.
      reflexivity.
    + cbn [flat_map]. rewrite IHchildren. reflexivity.
Qed.

Lemma bare_no_edges (node : DOMElement) :
  forall offsetX offsetY,
    bare node = true -> claimed_edges node offsetX offsetY = [].
Proof.
  induction node as [yoga parent children IH] using DOMElement_children_ind.
  intros offsetX offsetY. cbn [bare claimed_edges].
  induction IH as [|child children Hchild _ IHchildren]; intros Hbare.
  - reflexivity.
  - cbn [forallb] in Hbare.
    apply andb_prop in Hbare as [Hchild' Hrest].
    apply andb_prop in Hchild' as [Hgeo Hbare].
    destruct child as [[childYoga|] childParent grandchildren];
      [discriminate Hgeo|].
    cbn [flat_map]. now rewrite Hchild, IHchildren.
Qed.

(** In a tree where nothing with geometry hangs under a node without,
    the connected descendants are all the descendants there are. *)
Lemma connected_all_edges (node : DOMElement) :
  forall offsetX offsetY,
    connected node = true ->
    laidOutEdges node offsetX offsetY = claimed_edges node offsetX offsetY.
Proof.
  induction node as [yoga parent children IH] using DOMElement_children_ind.
  intros offsetX offsetY. cbn [connected laidOutEdges claimed_edges].
  induction IH as [|child children Hchild _ IHchildren]; intros Hconn.
  - reflexivity.
  - cbn [forallb] in Hconn. apply andb_prop in Hconn as [Hc Hrest].
    destruct child as [[childYoga|] childParent grandchildren];
      cbn [flat_map]; rewrite IHchildren by exact Hrest.
    + now rewrite Hchild.
    + now rewrite bare_no_edges.
Qed.

(** C6. For every scroll container with computed geometry, in a tree as
    the reconciler builds it, where the nodes without geometry are text and
    hold no box (nothing with geometry hangs under a node without), the
    maximal scroll is [max(0, extent - inner size)] on each axis.  The
    inner size is the computed size less the border on both edges of the
    axis; the extent is the greatest right, resp. bottom, edge reached
    from the origin of the container over all descendants, each placed by
    the sum of the offsets on its way down: no edge lies beyond it, and it
    is the edge of a descendant unless none lies beyond the origin. *)
Theorem maxScroll_of_content (element : DOMElement) (yoga : YogaNode) :
  yogaNode element = Some yoga ->
  connected element = true ->
  let rights := map fst (claimed_edges element 0 0) in
  let bottoms := map snd (claimed_edges element 0 0) in
  Box.getContentDimensions element
  = {| width := greatest rights; height := greatest bottoms |}
  /\ Box.getMaxScroll element
     = {| x := Z.max 0 (greatest rights - innerWidth yoga);
          y := Z.max 0 (greatest bottoms - innerHeight yoga) |}
  /\ (0 <= greatest rights
      /\ (forall edge, In edge rights -> edge <= greatest rights)
      /\ (greatest rights = 0 \/ In (greatest rights) rights))
  /\ (0 <= greatest bottoms
      /\ (forall edge, In edge bottoms -> edge <= greatest bottoms)
      /\ (greatest bottoms = 0 \/ In (greatest bottoms) bottoms))
  /\ Box.getMaxScroll element = claimed_maxScroll element.
Proof.
  intros Hyoga Hconn rights bottoms.
  assert (Box.getContentDimensions element
          = {| width := greatest rights; height := greatest bottoms |})
    as Hcontent.
  { unfold Box.getContentDimensions. rewrite Hyoga, measureNode_edges.
    rewrite (connected_all_edges element 0 0 Hconn).
    cbn [width height]. rewrite !fold_left_max_greatest by lia.
    pose proof (greatest_is_max rights) as (Hr & _).
    pose proof (greatest_is_max bottoms) as (Hb & _).
    fold rights bottoms. f_equal; lia. }
  assert (Box.getMaxScroll element
          = {| x := Z.max 0 (greatest rights - innerWidth yoga);
               y := Z.max 0 (greatest bottoms - innerHeight yoga) |})
    as Hmax.
  { unfold Box.getMaxScroll. rewrite Hyoga, Hcontent. reflexivity. }
  split; [exact Hcontent|]. split; [exact Hmax|].
  split; [apply greatest_is_max|]. split; [apply greatest_is_max|].
  rewrite Hmax. unfold claimed_maxScroll, claimed_contentExtent.
  rewrite Hyoga. reflexivity.
Qed.

(* ================================================================== *)
(** * More on the renderers: sequences of calls *)

Section RendererSequences.
Context {ansi : AnsiEscapes}.

Lemma run_app (calls1 calls2 : list call) :
  forall r,
    run r (calls1 ++ calls2)
    = (fst (run (fst (run r calls1)) calls2),
       snd (run r calls1) ++ snd (run (fst (run r calls1)) calls2)).
Proof.
  induction calls1 as [|c calls1 IH]; intros r.
  - simpl. now destruct (run r calls2).
  - rewrite <- app_comm_cons, !run_cons, IH. simpl. now rewrite app_assoc.
Qed.

Lemma perform_tracks (r : LogUpdate) (c : call) :
  previousOutputOf (fst (perform r c)) = tracks c.
Proof.
  destruct c as [str| | |str]; simpl.
  - apply render_tracks.
  - apply clear_reset.
  - apply done_reset.
  - apply sync_tracks.
Qed.

(** X1. Whatever a renderer tracked before, after a sequence of calls it
    tracks the text of the last call: the argument of a [render] or a
    [sync], the empty string after [clear] or [done]. *)
Theorem tracked_output_is_last_call (r : LogUpdate) (calls : list call)
  (c : call) :
  previousOutputOf (fst (run r (calls ++ [c]))) = tracks c.
Proof.
  rewrite run_app. cbn [fst]. rewrite run_cons. cbn [fst run].
  apply perform_tracks.
Qed.

(** What one call does about the cursor, counted. *)
Lemma perform_cursor (r : LogUpdate) (c : call) :
  showCursorOf (fst (perform r c)) = showCursorOf r
  /\ (showCursorOf r = true ->
      hides (snd (perform r c)) = 0%nat
      /\ shows (snd (perform r c)) = 0%nat
      /\ hasHiddenCursorOf (fst (perform r c)) = hasHiddenCursorOf r)
  /\ (hides (snd (perform r c)) + Nat.b2n (hasHiddenCursorOf r)
      <= shows (snd (perform r c))
         + Nat.b2n (hasHiddenCursorOf (fst (perform r c))))%nat.
Proof.
  destruct c as [str| | |str]; simpl.
  - destruct (render_cursor r str) as (Hs & Hf & chunks & He & _).
    rewrite Hs, Hf, He, hides_app, shows_app, hides_writes, shows_writes.
    destruct (showCursorOf r), (hasHiddenCursorOf r); simpl;
      repeat split; auto; discriminate.
  - pose proof (quiet_cursor r (or_introl eq_refl)) as (Hs & Hf & Hh & Hw).
    simpl in *. rewrite Hs, Hf, Hh, Hw. auto.
  - destruct (done_cursor r) as (Hs & Hf & Hh & Hw & _).
    rewrite Hs, Hf, Hh, Hw.
    destruct (showCursorOf r), (hasHiddenCursorOf r); simpl;
      repeat split; auto; discriminate.
  - pose proof (quiet_cursor r (or_intror (ex_intro _ str eq_refl)))
      as (Hs & Hf & Hh & Hw).
    simpl in *. rewrite Hs, Hf, Hh, Hw. auto.
Qed.

(** X2. A renderer made with [showCursor] on never touches the cursor:
    no sequence of calls hides it or shows it, and the flag
    [hasHiddenCursor] stays as it is. *)
Theorem shown_cursor_untouched (r : LogUpdate) (calls : list call) :
  showCursorOf r = true ->
  hides (snd (run r calls)) = 0%nat
  /\ shows (snd (run r calls)) = 0%nat
  /\ hasHiddenCursorOf (fst (run r calls)) = hasHiddenCursorOf r.
Proof.
  revert r. induction calls as [|c calls IH]; intros r Hs; [now simpl|].
  rewrite run_cons; cbn [fst snd]. rewrite hides_app, shows_app.
  destruct (perform_cursor r c) as (Hs' & Hon & _).
  destruct (Hon Hs) as (Hh & Hw & Hf).
  destruct (IH (fst (perform r c))) as (Hh' & Hw' & Hf'); [congruence|].
  rewrite Hh, Hw, Hh', Hw', Hf', Hf. auto.
Qed.

(** X3. The cursor is never hidden twice without being shown in between:
    over any sequence of calls, the hides, plus one if the cursor was
    hidden before, are at most the shows, plus one if it is hidden after.
    So a new renderer has hidden the cursor at most once more than it has
    shown it, and not more often when its flag is clear. *)
Theorem cursor_hides_are_shown (r : LogUpdate) (calls : list call) :
  (hides (snd (run r calls)) + Nat.b2n (hasHiddenCursorOf r)
   <= shows (snd (run r calls))
      + Nat.b2n (hasHiddenCursorOf (fst (run r calls))))%nat.
Proof.
  revert r. induction calls as [|c calls IH]; intros r; [simpl; lia|].
  rewrite run_cons; cbn [fst snd]. rewrite hides_app, shows_app.
  destruct (perform_cursor r c) as (_ & _ & Hstep).
  specialize (IH (fst (perform r c))). lia.
Qed.

(** One call on an incremental renderer and on the standard renderer that
    tracks the same screen. *)
Lemma perform_asStandard (sc : bool) (st : Incremental.state) (c : call) :
  exists st',
    fst (perform (IncrementalRenderer sc st) c) = IncrementalRenderer sc st'
    /\ fst (perform (StandardRenderer sc (asStandard st)) c)
       = StandardRenderer sc (asStandard st')
    /\ map kind (snd (perform (StandardRenderer sc (asStandard st)) c))
       = map kind (snd (perform (IncrementalRenderer sc st) c)).
Proof.
  destruct c as [str| | |str]; cbn [perform render clear done sync].
  - rewrite standard_render_eq, incremental_render_eq; cbv zeta.
    rewrite hideCursor_asStandard. cbn [fst snd asStandard Standard.previousOutput].
    destruct (String.eqb str (Incremental.previousOutput st)).
    + eexists. repeat split.
    + destruct (String.eqb str "" || String.eqb (Incremental.previousOutput st) "");
        eexists; (split; [reflexivity|]); (split; [reflexivity|]);
        cbn [snd]; rewrite !map_app; reflexivity.
  - eexists. repeat split.
  - unfold Standard.done, Incremental.done. cbn [asStandard Standard.previousOutput].
    destruct (negb sc); eexists; repeat split.
  - eexists. repeat split.
Qed.

(** X4. The two variants keep the same books.  From states that track the
    same screen, every sequence of calls leaves them tracking the same
    screen again (same output, the line count of the one being the number
    of lines of the other, same cursor flag), and their traces are the same
    up to the text of the writes: the same cursor events and as many
    writes, in the same order. *)
Theorem variants_agree (showCursor : bool) (st : Incremental.state)
  (calls : list call) :
  exists st',
    fst (run (IncrementalRenderer showCursor st) calls)
    = IncrementalRenderer showCursor st'
    /\ fst (run (StandardRenderer showCursor (asStandard st)) calls)
       = StandardRenderer showCursor (asStandard st')
    /\ map kind (snd (run (StandardRenderer showCursor (asStandard st)) calls))
       = map kind (snd (run (IncrementalRenderer showCursor st) calls)).
Proof.
  revert st. induction calls as [|c calls IH]; intros st.
  - exists st. repeat split.
  - destruct (perform_asStandard showCursor st c) as (st1 & Hi & Hs & Hk).
    destruct (IH st1) as (st' & Hi' & Hs' & Hk').
    exists st'. rewrite !run_cons; cbn [fst snd].
    rewrite Hi, Hs, !map_app, Hk, Hk'. auto.
Qed.

End RendererSequences.

(* ================================================================== *)
(** * More on the renderers: what is erased and written *)

Section RendererWrites.
Context {ansi : AnsiEscapes}.

Lemma split_not_empty (s : string) : (1 <= List.length (Js.split s))%nat.
Proof.
  induction s as [|c s IH]; simpl; [lia|].
  destruct (Ascii.eqb c Js.nl); simpl; [lia|].
  destruct (Js.split s); simpl; lia.
Qed.

Lemma concat_two (sep first second : string) (rest : list string) :
  String.concat sep (first :: second :: rest)
  = (first ++ sep ++ String.concat sep (second :: rest))%string.
Proof.
  reflexivity.
Qed.

(** Joining the lines of a text with newlines gives the text back. *)
Lemma unsplit_split (s : string) : unsplit (Js.split s) = s.
Proof.
  unfold unsplit. induction s as [|c s IH]; [reflexivity|].
  pose proof (split_not_empty s) as Hne.
  cbn [Js.split]. destruct (Ascii.eqb_spec c Js.nl) as [->|Hc].
  - destruct (Js.split s) as [|line lines]; [simpl in Hne; lia|].
    rewrite concat_two, IH. reflexivity.
  - destruct (Js.split s) as [|line lines]; [simpl in Hne; lia|].
    destruct lines as [|line' lines].
    + simpl in *. now rewrite IH.
    + rewrite concat_two in *. rewrite <- IH. reflexivity.
Qed.

Lemma split_injective (s t : string) : Js.split s = Js.split t -> s = t.
Proof.
  intros H. rewrite <- (unsplit_split s), <- (unsplit_split t). now rewrite H.
Qed.

Lemma cacheMatches_count (c : lineCache) (out : string) :
  cacheMatches c out -> cachedCount c = Z.of_nat (List.length (Js.split out)).
Proof.
  destruct c; simpl; intros ->; reflexivity.
Qed.

Lemma cacheIsReset_count (c : lineCache) :
  cacheIsReset c -> cachedCount c = 0.
Proof.
  destruct c; simpl; intros ->; reflexivity.
Qed.

(** What [render] writes when it does not compare lines: in the standard
    variant, and in the incremental one when one of the texts is empty. *)
Lemma render_writes (r : LogUpdate) (next : string) :
  (exists sc st, r = StandardRenderer sc st)
  \/ next = "" \/ previousOutputOf r = "" ->
  stream_writes (snd (render r next))
  = if String.eqb next (previousOutputOf r) then []
    else [(eraseLines (cachedCount (lineCacheOf r)) ++ next)%string].
Proof.
  intros Hcase. destruct r as [sc st | sc st]; simpl.
  - rewrite standard_render_eq; cbv zeta.
    destruct (standard_hideCursor_frame sc st) as (_ & _ & Hw).
    destruct (String.eqb next (Standard.previousOutput st)); cbn [snd]; auto.
    rewrite stream_writes_app, Hw. reflexivity.
  - destruct Hcase as [(sc' & st' & Habs)|Hempty]; [discriminate Habs|].
    simpl in Hempty.
    rewrite incremental_render_eq; cbv zeta.
    destruct (incremental_hideCursor_frame sc st) as (_ & _ & Hw).
    destruct (String.eqb next (Incremental.previousOutput st)); cbn [snd]; auto.
    assert (String.eqb next "" || String.eqb (Incremental.previousOutput st) ""
            = true) as ->.
    { destruct Hempty as [->| ->]; simpl; auto using orb_true_r. }
    cbn [snd]. rewrite stream_writes_app, Hw. reflexivity.
Qed.

(** The line cache after a [render] that is not a no-op. *)
Lemma render_caches (r : LogUpdate) (next : string) :
  next <> previousOutputOf r ->
  cacheMatches (lineCacheOf (fst (render r next))) next.
Proof.
  intros Hne. destruct r as [sc st | sc st]; simpl in *.
  - rewrite standard_render_eq; cbv zeta.
    destruct (String.eqb_spec next (Standard.previousOutput st)); [contradiction|].
    reflexivity.
  - rewrite incremental_render_eq; cbv zeta.
    destruct (String.eqb_spec next (Incremental.previousOutput st)); [contradiction|].
    destruct (String.eqb next "" || String.eqb (Incremental.previousOutput st) "");
      reflexivity.
Qed.

Lemma sync_caches (r : LogUpdate) (str : string) :
  cacheMatches (lineCacheOf (fst (sync r str))) str.
Proof.
  destruct r; reflexivity.
Qed.

Lemma clear_writes (r : LogUpdate) :
  snd (clear r) = [Write (eraseLines (cachedCount (lineCacheOf r)))].
Proof.
  destruct r; reflexivity.
Qed.

Lemma run_standard (calls : list call) :
  forall sc st, exists st',
    fst (run (StandardRenderer sc st) calls) = StandardRenderer sc st'.
Proof.
  induction calls as [|c calls IH]; intros sc st; [now exists st|].
  rewrite run_cons; cbn [fst].
  destruct c as [str| | |str]; cbn [perform render clear done sync].
  - destruct (Standard.render sc st str) as [st1 evs]. apply IH.
  - apply IH.
  - destruct (Standard.done sc st) as [st1 evs]. apply IH.
  - apply IH.
Qed.

(** X5. What is erased is what is on the screen.  On a renderer reached
    from a new one by any calls and tracking a non-empty output, [clear()]
    writes the erase of exactly the lines of that output and nothing else,
    [render('')] writes that same erase, and in the standard variant every
    [render] of a different text writes that erase followed by the text. *)
Theorem erase_count_is_screen_lines (showCursor incremental : bool)
  (calls : list call) (next : string) :
  let r := fst (run (create showCursor incremental) calls) in
  let lines := Z.of_nat (List.length (Js.split (previousOutputOf r))) in
  previousOutputOf r <> "" ->
  snd (clear r) = [Write (eraseLines lines)]
  /\ stream_writes (snd (render r "")) = [(eraseLines lines ++ "")%string]
  /\ (incremental = false ->
      next <> previousOutputOf r ->
      stream_writes (snd (render r next)) = [(eraseLines lines ++ next)%string]).
Proof.
  intros r lines Hne.
  assert (cachedCount (lineCacheOf r) = lines) as Hcount.
  { apply cacheMatches_count, run_consistent; [|exact Hne].
    intros H. now destruct (create_reset showCursor incremental). }
  split; [now rewrite clear_writes, Hcount|]. split.
  - rewrite render_writes by auto. rewrite Hcount.
    destruct (String.eqb_spec "" (previousOutputOf r)) as [E|_]; [now elim Hne|].
    reflexivity.
  - intros -> Hdiff.
    destruct (run_standard calls showCursor Standard.init) as [st' Hst].
    rewrite render_writes by (left; exists showCursor, st'; exact Hst).
    rewrite Hcount.
    destruct (String.eqb_spec next (previousOutputOf r)); [contradiction|].
    reflexivity.
Qed.

(** X6. An empty output is not a cleared screen.  After [clear()] or
    [done()] the next non-empty [render] erases no line; after [sync('')]
    and after a [render('')] that emptied a non-empty screen it erases
    one, the single line that the empty string splits into. *)
Theorem empty_output_counts_one_line (r : LogUpdate) (next : string) :
  next <> "" ->
  stream_writes (snd (render (fst (clear r)) next))
  = [(eraseLines 0 ++ next)%string]
  /\ stream_writes (snd (render (fst (done r)) next))
     = [(eraseLines 0 ++ next)%string]
  /\ stream_writes (snd (render (fst (sync r "")) next))
     = [(eraseLines 1 ++ next)%string]
  /\ (previousOutputOf r <> "" ->
      stream_writes (snd (render (fst (render r "")) next))
      = [(eraseLines 1 ++ next)%string]).
Proof.
  intros Hnext.
  assert (String.eqb next "" = false) as Hneq by now apply String.eqb_neq.
  repeat split.
  - destruct (clear_reset r) as [Ho Hc].
    rewrite render_writes by auto.
    now rewrite Ho, Hneq, (cacheIsReset_count _ Hc).
  - destruct (done_reset r) as [Ho Hc].
    rewrite render_writes by auto.
    now rewrite Ho, Hneq, (cacheIsReset_count _ Hc).
  - destruct (sync_tracks r "") as [Ho _].
    rewrite render_writes by auto.
    now rewrite Ho, Hneq, (cacheMatches_count _ _ (sync_caches r "")).
  - intros Hprev.
    pose proof (render_tracks r "") as Ho.
    rewrite render_writes by auto.
    rewrite Ho, Hneq, (cacheMatches_count _ "" (render_caches r (next := "")
                                                   (not_eq_sym Hprev))).
    reflexivity.
Qed.

Lemma render_write_count (r : LogUpdate) (next : string) :
  List.length (stream_writes (snd (render r next)))
  = if String.eqb next (previousOutputOf r) then 0%nat else 1%nat.
Proof.
  destruct r as [sc st | sc st]; simpl.
  - rewrite standard_render_eq; cbv zeta.
    destruct (standard_hideCursor_frame sc st) as (_ & _ & Hw).
    destruct (String.eqb next (Standard.previousOutput st)); cbn [snd].
    + now rewrite Hw.
    + now rewrite stream_writes_app, Hw.
  - rewrite incremental_render_eq; cbv zeta.
    destruct (incremental_hideCursor_frame sc st) as (_ & _ & Hw).
    destruct (String.eqb next (Incremental.previousOutput st)); cbn [snd].
    + now rewrite Hw.
    + destruct (String.eqb next "" || String.eqb (Incremental.previousOutput st) "");
        cbn [snd]; now rewrite stream_writes_app, Hw.
Qed.

(** X7. Every call writes to the stream at most once: [render] once when
    its argument differs from the tracked output and not at all otherwise,
    also in the incremental variant, whose line updates go out as one
    write; [clear] once; [done] once unless the tracked output is empty;
    [sync] never.  A sequence of calls writes at most as often as it has
    calls. *)
Theorem one_write_per_call (r : LogUpdate) (c : call) (calls : list call) :
  List.length (stream_writes (snd (perform r c)))
  = match c with
    | Render next => if String.eqb next (previousOutputOf r) then 0 else 1
    | Clear => 1
    | Done => if String.eqb (previousOutputOf r) "" then 0 else 1
    | Sync _ => 0
    end%nat
  /\ (List.length (stream_writes (snd (run r calls))) <= List.length calls)%nat.
Proof.
  assert (forall r c,
             List.length (stream_writes (snd (perform r c)))
             = match c with
               | Render next => if String.eqb next (previousOutputOf r) then 0 else 1
               | Clear => 1
               | Done => if String.eqb (previousOutputOf r) "" then 0 else 1
               | Sync _ => 0
               end%nat) as Hone.
  { intros r0 [next| | |str]; cbn [perform].
    - apply render_write_count.
    - now rewrite clear_writes.
    - destruct (done_cursor r0) as (_ & _ & _ & _ & ->).
      now destruct (String.eqb (previousOutputOf r0) "").
    - now destruct (sync_tracks r0 str) as [_ ->]. }
  split; [apply Hone|].
  revert r. induction calls as [|c' calls IH]; intros r; [simpl; lia|].
  rewrite run_cons; cbn [snd]. rewrite stream_writes_app, length_app.
  specialize (IH (fst (perform r c'))). specialize (Hone r c').
  cbn [List.length].
  destruct c' as [next| | |str];
    repeat match type of Hone with
           | context [if ?b then _ else _] => destruct b
           end; lia.
Qed.

Lemma run_incremental_consistent (calls : list call) (sc : bool)
  (st : Incremental.state) :
  fst (run (create sc true) calls) = IncrementalRenderer sc st ->
  Incremental.previousOutput st <> "" ->
  Incremental.previousLines st = Js.split (Incremental.previousOutput st).
Proof.
  intros Hrun Hne.
  assert (consistent (fst (run (create sc true) calls))) as Hcons.
  { apply run_consistent. intros H. now elim H. }
  rewrite Hrun in Hcons. exact (Hcons Hne).
Qed.

(** X8. The cursor moves of the incremental update are well formed.  On a
    renderer reached from a new one and tracking a non-empty output, the
    update starts either with a move up by the previous line count less
    one, which is not negative, or, when there are fewer lines than before,
    with the erase of at least one surplus line and a move up by the new
    line count, which is at least one. *)
Theorem cursor_moves_are_valid (showCursor : bool) (calls : list call)
  (st : Incremental.state) (next : string) :
  fst (run (create showCursor true) calls) = IncrementalRenderer showCursor st ->
  Incremental.previousOutput st <> "" ->
  let previousCount := Z.of_nat (List.length (Incremental.previousLines st)) in
  let nextCount := Z.of_nat (List.length (Js.split next)) in
  (previousCount <= nextCount
   /\ 0 <= previousCount - 1
   /\ Incremental.positionCursor previousCount nextCount
      = [cursorUp (previousCount - 1)])
  \/ (1 <= previousCount - nextCount
      /\ 1 <= nextCount
      /\ Incremental.positionCursor previousCount nextCount
         = [eraseLines (previousCount - nextCount); cursorUp nextCount]).
Proof.
  intros Hrun Hne previousCount nextCount.
  pose proof (run_incremental_consistent calls Hrun Hne) as Hlines.
  pose proof (split_not_empty (Incremental.previousOutput st)) as Hp.
  pose proof (split_not_empty next) as Hn.
  unfold Incremental.positionCursor, previousCount, nextCount.
  rewrite Hlines.
  destruct (Z.ltb_spec (Z.of_nat (List.length (Js.split next)))
              (Z.of_nat (List.length (Js.split (Incremental.previousOutput st)))));
    [right | left]; repeat split; lia.
Qed.

Lemma strict_eq_true (a b : option string) :
  Js.strict_eq a b = true -> a = b.
Proof.
  destruct a as [x|], b as [y|]; simpl; try discriminate; auto.
  intros H. apply String.eqb_eq in H. now subst.
Qed.

Lemma forallb_false_exists {A : Type} (f : A -> bool) (l : list A) :
  forallb f l = false -> exists a, In a l /\ f a = false.
Proof.
  induction l as [|a l IH]; simpl; [discriminate|].
  destruct (f a) eqn:Ha; simpl.
  - intros H. destruct (IH H) as (b & Hb & Hfb). exists b. auto.
  - intros _. exists a. auto.
Qed.

(** X9. An incremental update never leaves the screen as it was.  On a
    renderer reached from a new one and tracking a non-empty output, a
    [render] of a different text either has fewer lines than the screen,
    so that surplus lines are erased, or has a line that differs from the
    line of the same index on the screen, which the loop then rewrites. *)
Theorem effective_render_rewrites (showCursor : bool) (calls : list call)
  (st : Incremental.state) (next : string) :
  fst (run (create showCursor true) calls) = IncrementalRenderer showCursor st ->
  Incremental.previousOutput st <> "" ->
  next <> Incremental.previousOutput st ->
  (List.length (Js.split next) < List.length (Incremental.previousLines st))%nat
  \/ exists i line,
       nth_error (Js.split next) i = Some line
       /\ Incremental.contentChanged (Js.split next)
            (Incremental.previousLines st) i = true.
Proof.
  intros Hrun Hne Hdiff.
  pose proof (run_incremental_consistent calls Hrun Hne) as Hlines.
  rewrite Hlines.
  set (nextLines := Js.split next).
  set (previousLines := Js.split (Incremental.previousOutput st)).
  destruct (Nat.lt_ge_cases (List.length nextLines) (List.length previousLines))
    as [Hshrink|Hgrow]; [now left|right].
  destruct (forallb (fun i => negb (Incremental.contentChanged nextLines
                                      previousLines i))
              (seq 0 (List.length nextLines))) eqn:Hall.
  - exfalso. apply Hdiff, split_injective. fold nextLines previousLines.
    apply nth_error_ext. intros i.
    destruct (Nat.lt_ge_cases i (List.length nextLines)) as [Hi|Hi].
    + rewrite forallb_forall in Hall.
      specialize (Hall i). rewrite in_seq in Hall.
      specialize (Hall ltac:(lia)).
      unfold Incremental.contentChanged in Hall.
      rewrite negb_involutive in Hall. now apply strict_eq_true.
    + rewrite (proj2 (nth_error_None nextLines i)) by lia.
      now rewrite (proj2 (nth_error_None previousLines i)) by lia.
  - destruct (forallb_false_exists _ _ Hall) as (i & Hi & Hchanged).
    apply in_seq in Hi. apply negb_false_iff in Hchanged.
    destruct (nth_error nextLines i) as [line|] eqn:Hline.
    + exists i, line. auto.
    + apply nth_error_None in Hline. lia.
Qed.

End RendererWrites.

(* ================================================================== *)
(** * More on the handle of [Box] *)

(** X10. [scrollToTop()] is [scrollTo] with any [y] at or below 0, and
    [scrollToBottom()] is [scrollTo] with any [y] at or above the maximal
    scroll, positive infinity included: the same position, the same copy
    on the element, the same version. *)
Theorem scrollTo_reaches_top_and_bottom (element : DOMElement) (st : Box.state)
  (v : number) :
  v <> NaN ->
  (number_le v (Num 0) ->
   Box.scrollTo element {| option_x := None; option_y := Some v |} st
   = Box.scrollToTop st)
  /\ (number_le (Num (y (Box.getMaxScroll element))) v ->
      Box.scrollTo element {| option_x := None; option_y := Some v |} st
      = Box.scrollToBottom element st).
Proof.
  intros Hv. destruct (getMaxScroll_nonneg element) as [_ Hy].
  unfold Box.scrollTo, Box.scrollToTop, Box.scrollToBottom; simpl.
  split; intros Hle; destruct v as [z| | |]; simpl in *;
    try contradiction; try (now elim Hv);
    repeat f_equal; lia.
Qed.

(** X11. Two calls of [scrollTo] on the same element end at the position
    of one call with the merged options: the later call decides the axes
    it gives, the earlier one the others.  So a call repeated changes
    nothing more, and [x] and [y] can be set in either order. *)
Theorem scrollTo_twice (element : DOMElement) (first second : ScrollToOptions)
  (st : Box.state) :
  Box.scrollStateRef (Box.scrollTo element second (Box.scrollTo element first st))
  = Box.scrollStateRef (Box.scrollTo element (Box.merge first second) st)
  /\ Box.scrollStateRef (Box.scrollTo element first (Box.scrollTo element first st))
     = Box.scrollStateRef (Box.scrollTo element first st)
  /\ Box.scrollVersion (Box.scrollTo element second (Box.scrollTo element first st))
     = Box.scrollVersion st + 2.
Proof.
  destruct first as [[x1|] [y1|]], second as [[x2|] [y2|]];
    unfold Box.scrollTo, Box.merge; simpl; repeat split; lia.
Qed.

Lemma perform_offset (element : DOMElement) (st : Box.state) (c : Box.call) :
  Box.internal_scrollOffset st = None
  \/ Box.internal_scrollOffset st = Some (Box.scrollStateRef st) ->
  (Box.internal_scrollOffset (Box.perform element st c) = None
   \/ Box.internal_scrollOffset (Box.perform element st c)
      = Some (Box.scrollStateRef (Box.perform element st c)))
  /\ (Box.is_scroll_call c = true ->
      Box.internal_scrollOffset (Box.perform element st c)
      = Some (Box.scrollStateRef (Box.perform element st c)))
  /\ Box.scrollVersion (Box.perform element st c)
     = Box.scrollVersion st + (if Box.is_scroll_call c then 1 else 0).
Proof.
  intros Hst. destruct c as [options| | |style]; simpl.
  - repeat split; auto.
  - repeat split; auto.
  - repeat split; auto.
  - unfold Box.layoutEffect.
    destruct (Box.isScrollContainer style); simpl;
      repeat split; auto; try discriminate; lia.
Qed.

(** X12. The element never holds a stale scroll offset.  If the offset of
    the element is unset or is the scroll position, then after any scroll
    calls and layout effects it is unset or is the scroll position again,
    and it is the position once a scroll call was made; the scroll version
    has gone up by the number of scroll calls, and layout effects leave it
    alone. *)
Theorem scroll_offset_in_step (element : DOMElement) (calls : list Box.call)
  (st : Box.state) :
  Box.internal_scrollOffset st = None
  \/ Box.internal_scrollOffset st = Some (Box.scrollStateRef st) ->
  let st' := Box.run element st calls in
  (Box.internal_scrollOffset st' = None
   \/ Box.internal_scrollOffset st' = Some (Box.scrollStateRef st'))
  /\ (existsb Box.is_scroll_call calls = true ->
      Box.internal_scrollOffset st' = Some (Box.scrollStateRef st'))
  /\ Box.scrollVersion st'
     = Box.scrollVersion st
       + Z.of_nat (List.length (filter Box.is_scroll_call calls)).
Proof.
  revert st. induction calls as [|c calls IH]; intros st Hst; cbv zeta.
  - simpl. repeat split; auto; [discriminate|lia].
  - destruct (perform_offset element st c Hst) as (Hstep & Hset & Hversion).
    destruct (IH _ Hstep) as (Hafter & Hlater & Hcount).
    cbn [Box.run fold_left] in *. fold (Box.run element (Box.perform element st c) calls).
    split; [exact Hafter|]. split.
    + cbn [existsb]. intros Hsome.
      destruct (Box.is_scroll_call c) eqn:Hc; [|now apply Hlater].
      specialize (Hset eq_refl).
      destruct (IH _ (or_intror Hset)) as ([Hnone|Hsome'] & _ & _); [|exact Hsome'].
      clear - Hset Hnone calls.
      exfalso. revert Hset Hnone. generalize (Box.perform element st c).
      induction calls as [|c' calls IHc]; intros s Hset Hnone.
      * simpl in Hnone. congruence.
      * cbn [Box.run fold_left] in Hnone.
        destruct (perform_offset element s c' (or_intror Hset)) as ([Hn|Hs] & _ & _).
        -- destruct c' as [o| | |style]; simpl in Hn; try discriminate.
           unfold Box.layoutEffect in Hn.
           destruct (Box.isScrollContainer style); simpl in Hn; congruence.
        -- exact (IHc _ Hs Hnone).
    + rewrite Hcount, Hversion. cbn [filter].
      destruct (Box.is_scroll_call c); cbn [List.length]; lia.
Qed.




Lemma getContentDimensions_greatest (element : DOMElement) (yoga : YogaNode) :
  yogaNode element = Some yoga ->
  Box.getContentDimensions element
  = {| width := greatest (map fst (laidOutEdges element 0 0));
       height := greatest (map snd (laidOutEdges element 0 0)) |}.
Proof.
  intros Hyoga.
  unfold Box.getContentDimensions. rewrite Hyoga, measureNode_edges.
  cbn [width height]. rewrite !fold_left_max_greatest by lia.
  pose proof (greatest_is_max (map fst (laidOutEdges element 0 0))) as (Hr & _).
  pose proof (greatest_is_max (map snd (laidOutEdges element 0 0))) as (Hb & _).
  f_equal; lia.
Qed.

Lemma getMaxScroll_greatest (element : DOMElement) (yoga : YogaNode) :
  yogaNode element = Some yoga ->
  Box.getMaxScroll element
  = {| x := Z.max 0 (greatest (map fst (laidOutEdges element 0 0))
                     - innerWidth yoga);
       y := Z.max 0 (greatest (map snd (laidOutEdges element 0 0))
                     - innerHeight yoga) |}.
Proof.
  intros Hyoga. unfold Box.getMaxScroll.
  rewrite Hyoga, (getContentDimensions_greatest element Hyoga). reflexivity.
Qed.

(** X14. The maximal scroll is what it takes to see everything.  For a
    container with geometry, every measured descendant has its right edge
    within the inner width once the content is moved left by the maximal
    scroll, and its bottom edge within the inner height once moved up by
    it.  When the inner size is not negative, the maximal scroll of an
    axis is 0 exactly when no measured edge lies beyond the inner size. *)
Theorem maxScroll_shows_everything (element : DOMElement) (yoga : YogaNode) :
  yogaNode element = Some yoga ->
  let maxScroll := Box.getMaxScroll element in
  let edges := laidOutEdges element 0 0 in
  (forall edge, In edge edges ->
                fst edge - x maxScroll <= innerWidth yoga
                /\ snd edge - y maxScroll <= innerHeight yoga)
  /\ (0 <= innerWidth yoga ->
      (x maxScroll = 0 <->
       forall edge, In edge edges -> fst edge <= innerWidth yoga))
  /\ (0 <= innerHeight yoga ->
      (y maxScroll = 0 <->
       forall edge, In edge edges -> snd edge <= innerHeight yoga)).
Proof.
  intros Hyoga maxScroll edges. unfold maxScroll.
  rewrite (getMaxScroll_greatest element Hyoga). fold edges. cbn [x y].
  destruct (greatest_is_max (map fst edges)) as (Hr0 & Hrle & Hrin).
  destruct (greatest_is_max (map snd edges)) as (Hb0 & Hble & Hbin).
  split; [|split].
  - intros edge Hin.
    pose proof (Hrle _ (in_map fst _ _ Hin)).
    pose proof (Hble _ (in_map snd _ _ Hin)). lia.
  - intros Hinner. split.
    + intros Hzero edge Hin. pose proof (Hrle _ (in_map fst _ _ Hin)). lia.
    + intros Hfit. destruct Hrin as [E|Hin]; [lia|].
      apply in_map_iff in Hin as (edge & Hedge & Hin).
      specialize (Hfit edge Hin). lia.
  - intros Hinner. split.
    + intros Hzero edge Hin. pose proof (Hble _ (in_map snd _ _ Hin)). lia.
    + intros Hfit. destruct Hbin as [E|Hin]; [lia|].
      apply in_map_iff in Hin as (edge & Hedge & Hin).
      specialize (Hfit edge Hin). lia.
Qed.

Lemma greatest_incl (zs zs' : list Z) :
  incl zs zs' -> greatest zs <= greatest zs'.
Proof.
  intros Hincl.
  destruct (greatest_is_max zs') as (H0 & Hle & _).
  destruct (greatest_is_max zs) as (_ & _ & [E|Hin]).
  - now rewrite E.
  - apply Hle, Hincl, Hin.
Qed.

Lemma laidOutEdges_incl (yoga yoga' : option YogaNode)
  (parent parent' : option DOMElement) (children children' : list DOMElement) :
  incl children children' ->
  incl (laidOutEdges (mkElement yoga parent children) 0 0)
       (laidOutEdges (mkElement yoga' parent' children') 0 0).
Proof.
  intros Hincl edge. cbn [laidOutEdges]. rewrite !in_flat_map.
  intros (child & Hchild & Hedge). exists child. auto.
Qed.

Lemma laidOutEdges_filter (yoga : option YogaNode) (parent : option DOMElement)
  (children : list DOMElement) :
  laidOutEdges (mkElement yoga parent (filter hasGeometry children)) 0 0
  = laidOutEdges (mkElement yoga parent children) 0 0.
Proof.
  cbn [laidOutEdges].
  induction children as [|[[childYoga|] p grandchildren] children IH];
    cbn [filter hasGeometry yogaNode flat_map]; [reflexivity| |exact IH].
  now rewrite IH.
Qed.

(** X15. More content never gives less to scroll, and what has no
    geometry does not count.  For a container of a given computed layout,
    the maximal scroll with a list of children is at most the maximal
    scroll with any list that contains them all, in any order; and it is
    the same with the children without geometry (text nodes) left out. *)
Theorem maxScroll_grows_with_content (yoga : YogaNode)
  (parent parent' : option DOMElement) (children children' : list DOMElement) :
  incl children children' ->
  x (Box.getMaxScroll (mkElement (Some yoga) parent children))
  <= x (Box.getMaxScroll (mkElement (Some yoga) parent' children'))
  /\ y (Box.getMaxScroll (mkElement (Some yoga) parent children))
     <= y (Box.getMaxScroll (mkElement (Some yoga) parent' children'))
  /\ Box.getMaxScroll (mkElement (Some yoga) parent
                         (filter hasGeometry children))
     = Box.getMaxScroll (mkElement (Some yoga) parent children).
Proof.
  intros Hincl.
  rewrite (@getMaxScroll_greatest (mkElement (Some yoga) parent children)
             yoga eq_refl).
  rewrite (@getMaxScroll_greatest (mkElement (Some yoga) parent' children')
             yoga eq_refl).
  rewrite (@getMaxScroll_greatest
             (mkElement (Some yoga) parent (filter hasGeometry children))
             yoga eq_refl).
  cbn [x y]. rewrite laidOutEdges_filter.
  pose proof (laidOutEdges_incl (Some yoga) (Some yoga) parent parent' Hincl)
    as Hedges.
  pose proof (greatest_incl (incl_map fst Hedges)).
  pose proof (greatest_incl (incl_map snd Hedges)).
  repeat split; lia.
Qed.

Lemma getBounds_prefix (element : DOMElement) (yoga : YogaNode) :
  yogaNode element = Some yoga ->
  Box.getBounds element
  = {| bounds_x :=
         getComputedLeft yoga
         + sum (map leftOf (laidOutPrefix (ancestors element)));
       bounds_y :=
         getComputedTop yoga
         + sum (map topOf (laidOutPrefix (ancestors element)));
       bounds_width := getComputedWidth yoga;
       bounds_height := getComputedHeight yoga |}.
Proof.
  intros Hyoga. unfold Box.getBounds. rewrite Hyoga.
  destruct element as [yo [parent|] children]; simpl.
  - rewrite addParents_spec. reflexivity.
  - f_equal; lia.
Qed.

(** X16. Bounds add up along the tree.  The bounds of a node with
    geometry whose parent has geometry are its own size at the position of
    the parent bounds plus its own offset; under a parent without
    geometry, and at the root, they are its own size at its own offset. *)
Theorem bounds_relative_to_parent (yoga : YogaNode) (children : list DOMElement)
  (parent : DOMElement) :
  let element := mkElement (Some yoga) (Some parent) children in
  let own :=
    {| bounds_x := getComputedLeft yoga; bounds_y := getComputedTop yoga;
       bounds_width := getComputedWidth yoga;
       bounds_height := getComputedHeight yoga |} in
  (hasGeometry parent = true ->
   Box.getBounds element
   = {| bounds_x := bounds_x (Box.getBounds parent) + getComputedLeft yoga;
        bounds_y := bounds_y (Box.getBounds parent) + getComputedTop yoga;
        bounds_width := getComputedWidth yoga;
        bounds_height := getComputedHeight yoga |})
  /\ (hasGeometry parent = false -> Box.getBounds element = own)
  /\ Box.getBounds (mkElement (Some yoga) None children) = own.
Proof.
  intros element own. unfold element, own.
  rewrite (@getBounds_prefix (mkElement (Some yoga) (Some parent) children)
             yoga eq_refl).
  rewrite (@getBounds_prefix (mkElement (Some yoga) None children)
             yoga eq_refl).
  cbn [ancestors laidOutPrefix]. split; [|split].
  - intros Hgeo. rewrite Hgeo.
    unfold hasGeometry in Hgeo.
    destruct (yogaNode parent) as [parentYoga|] eqn:Hparent; [|discriminate].
    rewrite (getBounds_prefix parent Hparent).
    cbn [map sum fold_right bounds_x bounds_y]. unfold leftOf at 1, topOf at 1.
    rewrite Hparent.
    fold (sum (map leftOf (laidOutPrefix (ancestors parent)))).
    fold (sum (map topOf (laidOutPrefix (ancestors parent)))).
    f_equal; lia.
  - intros Hgeo. rewrite Hgeo. simpl. f_equal; lia.
  - simpl. f_equal; lia.
Qed.

(** X17. The style that [Box] resolves is resolved for good: both axes
    are set, resolving it again changes nothing, and it makes a scroll
    container exactly when the style as given does. *)
Theorem boxStyle_is_resolved (style : Styles) :
  Box.boxStyle (Box.boxStyle style) = Box.boxStyle style
  /\ overflowX (Box.boxStyle style) <> None
  /\ overflowY (Box.boxStyle style) <> None
  /\ Box.isScrollContainer (Box.boxStyle style) = Box.isScrollContainer style.
Proof.
  destruct style as [[[]|] [[]|] [[]|]];
    repeat split; try reflexivity; discriminate.
Qed.

(* ================================================================== *)
(** * The renderers and the handle on sample inputs *)

#[local] Existing Instance Terminal.vt100.

(** [split] on the empty string, on one line, and at a trailing newline. *)
Example split_samples :
  Js.split "" = [""]
  /\ Js.split "top" = ["top"]
  /\ Js.split Sample.frame1 = ["top"; "one"]
  /\ Js.split (Sample.frame1 ++ Js.newline)%string = ["top"; "one"; ""].
Proof.
  repeat split; reflexivity.
Qed.

(** Two frames on a standard renderer: the second write erases the two
    lines of the first frame. *)
Example standard_two_frames :
  snd (run (create false false) [Render Sample.frame1; Render Sample.frame2])
  = [CursorHide; Write Sample.frame1;
     Write (Terminal.eraseLinesBy 2 ++ Sample.frame2)%string].
Proof.
  reflexivity.
Qed.

(** From two lines to the first of them on an incremental renderer: the
    surplus line is erased and the cursor goes up; the line that stays is
    not touched. *)
Example incremental_shrink :
  stream_writes (snd (Incremental.render false Sample.shown "top"))
  = [(Terminal.eraseLinesBy 1 ++ Terminal.cursorUpBy 1)%string].
Proof.
  reflexivity.
Qed.

(** From one line to three: the new lines are written after a newline
    each, the last one without. *)
Example incremental_grow :
  stream_writes
    (snd (run (create true true)
            [Render "top";
             Render ("top" ++ Js.newline ++ "a" ++ Js.newline ++ "b")%string]))
  = ["top";
     (Terminal.cursorUpBy 0 ++ Terminal.nextLine
      ++ Terminal.eraseCurrentLine ++ "a" ++ Js.newline
      ++ Terminal.eraseCurrentLine ++ "b")%string].
Proof.
  reflexivity.
Qed.

(** [scrollTo] in the viewport: below 0, within the range, above it. *)
Example scrollTo_samples :
  Box.getScrollPosition
    (Box.scrollTo Sample.viewport
       {| option_x := Some (Num (-3)); option_y := Some (Num 4) |} Box.mount)
  = {| x := Num 0; y := Num 4 |}
  /\ Box.getScrollPosition
       (Box.scrollTo Sample.viewport
          {| option_x := Some PosInfinity; option_y := None |} Box.mount)
     = {| x := Num 7; y := Num 0 |}
  /\ Box.getScrollPosition (Box.scrollToBottom Sample.viewport Box.mount)
     = {| x := Num 0; y := Num 18 |}.
Proof.
  repeat split; reflexivity.
Qed.

(** C5 as stated fails: a renderer made with [showCursor] off shows the
    cursor in [done()] although it never hid it. *)
Lemma done_shows_cursor_not_hidden :
  ~ (In CursorShow (snd (done (create false false)))
     <-> hasHiddenCursorOf (create false false) = true).
Proof.
  intros [Hshown _]. simpl in Hshown.
  specialize (Hshown (or_introl eq_refl)). discriminate Hshown.
Qed.

(** The unchanged text comes first: [render('')] on a new renderer writes
    nothing, in the incremental variant as in the standard one. *)
Example render_empty_on_empty_writes_nothing :
  stream_writes (snd (Incremental.render false Incremental.init "")) = []
  /\ stream_writes (snd (Standard.render false Standard.init "")) = [].
Proof.
  split; reflexivity.
Qed.

(** C2 as stated fails: the NaN a caller passes for an axis is stored as
    the position of this axis, which is not left unchanged. *)
Lemma scrollTo_stores_NaN :
  x (Box.scrollStateRef
       (Box.scrollTo Sample.viewport
          {| option_x := Some NaN; option_y := None |} Box.mount)) = NaN
  /\ x (Box.scrollStateRef
          (Box.scrollTo Sample.viewport
             {| option_x := Some NaN; option_y := None |} Box.mount))
     <> x (Box.scrollStateRef Box.mount).
Proof.
  split; [reflexivity|differ].
Qed.

(** Outside the trees of the reconciler: a 20 x 20 box put by hand under
    a child without geometry is not measured, so the container is not
    [connected] and the extent over all descendants is not what is
    computed. *)
Example maxScroll_misses_wrapped_content :
  connected Sample.wrapped = false
  /\ Box.getMaxScroll Sample.wrapped = {| x := 0; y := 0 |}
  /\ claimed_maxScroll Sample.wrapped = {| x := 10; y := 10 |}
  /\ Box.getMaxScroll Sample.wrapped <> claimed_maxScroll Sample.wrapped.
Proof.
  split; [reflexivity|]. split; [reflexivity|]. split; [reflexivity|differ].
Qed.

(** C7 as stated fails: above a parent without geometry, the root at
    (5, 5) is not added to the box at (1, 2). *)
Lemma getBounds_stops_at_gap :
  Box.getBounds Sample.detached
  = {| bounds_x := 1; bounds_y := 2; bounds_width := 4; bounds_height := 1 |}
  /\ claimed_getBounds Sample.detached
     = {| bounds_x := 6; bounds_y := 7; bounds_width := 4; bounds_height := 1 |}
  /\ Box.getBounds Sample.detached <> claimed_getBounds Sample.detached.
Proof.
  split; [reflexivity|]. split; [reflexivity|differ].
Qed.

(** From [frame1] to [frame2]: up one row, over the unchanged first line,
    then the second line erased and written; no newline. *)
Lemma incremental_line_updates_witness :
  Incremental.previousOutput Sample.shown <> ""
  /\ Sample.frame2 <> ""
  /\ Sample.frame2 <> Incremental.previousOutput Sample.shown
  /\ stream_writes (snd (Incremental.render false Sample.shown Sample.frame2))
     = [(Terminal.cursorUpBy 1 ++ Terminal.nextLine
         ++ Terminal.eraseCurrentLine ++ "two")%string].
Proof.
  split; [differ|]. split; [differ|]. split; [differ|].
  exact (proj1 (@incremental_line_updates Terminal.vt100 false Sample.shown
                  Sample.frame2 ltac:(differ) ltac:(differ) ltac:(differ))).
Defined.

(** The first frame on a new incremental renderer is written in full. *)
Lemma incremental_falls_back_witness :
  (Incremental.previousOutput Incremental.init = "" \/ Sample.frame1 = "")
  /\ Sample.frame1 <> Incremental.previousOutput Incremental.init
  /\ Standard.render false (asStandard Incremental.init) Sample.frame1
     = (asStandard (fst (Incremental.render false Incremental.init Sample.frame1)),
        snd (Incremental.render false Incremental.init Sample.frame1))
  /\ stream_writes (snd (Incremental.render false Incremental.init Sample.frame1))
     = [Sample.frame1].
Proof.
  split; [now left|]. split; [differ|].
  destruct (@incremental_falls_back Terminal.vt100 false Incremental.init
              Sample.frame1 (or_introl eq_refl)) as [Hsame Hwrite].
  split; [exact Hsame|].
  exact (proj1 (Hwrite ltac:(differ))).
Defined.

(** After one frame the cursor is hidden, and [done()] shows it again
    after the final newline. *)
Lemma done_finishes_witness :
  let r := fst (run (create false true) [Render Sample.frame1]) in
  hasHiddenCursorOf r = true
  /\ snd (done r) = [Write Js.newline; CursorShow]
  /\ shows (snd (done r)) = 1%nat
  /\ hasHiddenCursorOf (fst (done r)) = false.
Proof.
  intros r. split; [reflexivity|]. split; [reflexivity|].
  exact (proj2 (@done_finishes Terminal.vt100) false true
            [Render Sample.frame1] eq_refl).
Defined.

(** A renderer showing [frame1] stays consistent when it renders [frame2]. *)
Lemma line_cache_consistent_witness :
  consistent (IncrementalRenderer false Sample.shown)
  /\ consistent (fst (perform (IncrementalRenderer false Sample.shown)
                        (Render Sample.frame2))).
Proof.
  assert (consistent (IncrementalRenderer false Sample.shown)) as Hshown.
  { intros _. reflexivity. }
  split; [exact Hshown|].
  exact (proj1 (proj2 (@line_cache_consistent Terminal.vt100)) _
            (Render Sample.frame2) Hshown).
Defined.

(** A new renderer that is synced with [frame1] and then asked to render
    it hides the cursor and writes nothing; the cursor is not hidden again
    by the calls that follow. *)
Lemma cursor_hidden_once_witness :
  let r1 := fst (run (create false true) [Sync Sample.frame1]) in
  Forall (fun c => c = Clear \/ exists s, c = Sync s) [Sync Sample.frame1]
  /\ Forall (fun c => c <> Done)
       [Render Sample.frame2; Clear; Render Sample.frame2]
  /\ snd (render r1 Sample.frame1) = [CursorHide]
  /\ hides (snd (run (fst (render r1 Sample.frame1))
                   [Render Sample.frame2; Clear; Render Sample.frame2]))
     = 0%nat.
Proof.
  intros r1.
  assert (Forall (fun c => c = Clear \/ exists s, c = Sync s)
            [Sync Sample.frame1]) as Hbefore.
  { apply Forall_cons; [|apply Forall_nil].
    right. exists Sample.frame1. reflexivity. }
  assert (Forall (fun c => c <> Done)
            [Render Sample.frame2; Clear; Render Sample.frame2]) as Hafter.
  { repeat (apply Forall_cons; [discriminate|]). apply Forall_nil. }
  split; [exact Hbefore|]. split; [exact Hafter|].
  destruct (@cursor_hidden_once Terminal.vt100 (create false true)
              [Sync Sample.frame1]
              [Render Sample.frame2; Clear; Render Sample.frame2]
              Sample.frame1
              (or_introl (ex_intro _ true eq_refl)) Hbefore Hafter)
    as (_ & _ & Hsame & Hquiet).
  split; [exact Hsame | exact Hquiet].
Defined.

(** In the 10 x 5 viewport with 18 rows to scroll, [scrollTo({y: 100})]
    stops at row 18 and leaves [x] alone. *)
Lemma scrollTo_clamps_witness :
  let st' :=
    Box.scrollTo Sample.viewport
      {| option_x := None; option_y := Some (Num 100) |} Box.mount in
  None <> Some NaN
  /\ Some (Num 100) <> Some NaN
  /\ x (Box.scrollStateRef st') = x (Box.scrollStateRef Box.mount)
  /\ clampedInto (y (Box.getMaxScroll Sample.viewport)) (Num 100)
       (y (Box.scrollStateRef st'))
  /\ y (Box.scrollStateRef st') = Num 18.
Proof.
  intros st'.
  pose proof (@scrollTo_clamps Sample.viewport None (Some (Num 100)) Box.mount)
    as (Hx & Hy & _).
  split; [discriminate|]. split; [discriminate|].
  split; [apply Hx; discriminate|].
  split; [apply Hy; discriminate|reflexivity].
Defined.

(** The viewport: content of 15 x 21 cells in 8 x 3 cells of room. *)
Lemma maxScroll_of_content_witness :
  yogaNode Sample.viewport = Some (Sample.bordered 0 0 10 5 1)
  /\ connected Sample.viewport = true
  /\ Box.getContentDimensions Sample.viewport = {| width := 15; height := 21 |}
  /\ Box.getMaxScroll Sample.viewport = {| x := 7; y := 18 |}.
Proof.
  split; [reflexivity|]. split; [reflexivity|].
  destruct (@maxScroll_of_content Sample.viewport _ eq_refl eq_refl)
    as (Hcontent & Hmax & _).
  split; [exact Hcontent | exact Hmax].
Defined.

(** The box at (1, 2) in a parent at (3, 4) in the root at (5, 5). *)
Lemma getBounds_sums_ancestors_witness :
  yogaNode Sample.nested = Some (Sample.box 1 2 4 1)
  /\ Box.getBounds Sample.nested
     = {| bounds_x := 9; bounds_y := 11;
          bounds_width := 4; bounds_height := 1 |}.
Proof.
  split; [reflexivity|].
  exact (proj1 (@getBounds_sums_ancestors Sample.nested _ eq_refl)).
Defined.

(* ------------------------------------------------------------------ *)
(** *** Sequences of calls on sample inputs *)

(** With [showCursor] on, a frame and [done()] leave the cursor alone. *)
Lemma shown_cursor_untouched_witness :
  showCursorOf (create true true) = true
  /\ hides (snd (run (create true true) [Render Sample.frame1; Done])) = 0%nat
  /\ shows (snd (run (create true true) [Render Sample.frame1; Done])) = 0%nat.
Proof.
  split; [reflexivity|].
  destruct (@shown_cursor_untouched Terminal.vt100 (create true true)
              [Render Sample.frame1; Done] eq_refl) as (Hh & Hs & _).
  split; [exact Hh | exact Hs].
Defined.

(** After [frame1] on a standard renderer, [clear()] and the next frame
    erase its two lines. *)
Lemma erase_count_is_screen_lines_witness :
  let r := fst (run (create false false) [Render Sample.frame1]) in
  previousOutputOf r <> ""
  /\ Sample.frame2 <> previousOutputOf r
  /\ snd (clear r) = [Write (Terminal.eraseLinesBy 2)]
  /\ stream_writes (snd (render r Sample.frame2))
     = [(Terminal.eraseLinesBy 2 ++ Sample.frame2)%string].
Proof.
  intros r.
  assert (previousOutputOf r <> "") as Hne by differ.
  assert (Sample.frame2 <> previousOutputOf r) as Hdiff by differ.
  split; [exact Hne|]. split; [exact Hdiff|].
  destruct (@erase_count_is_screen_lines Terminal.vt100 false false
              [Render Sample.frame1] Sample.frame2 Hne)
    as (Hclear & _ & Hrender).
  split; [exact Hclear | exact (Hrender eq_refl Hdiff)].
Defined.

(** On a new renderer, the frame after [clear()] erases nothing and the
    frame after [sync('')] erases one line. *)
Lemma empty_output_counts_one_line_witness :
  Sample.frame1 <> ""
  /\ stream_writes (snd (render (fst (clear (create false true))) Sample.frame1))
     = [Sample.frame1]
  /\ stream_writes (snd (render (fst (sync (create false true) ""))
                           Sample.frame1))
     = [(Terminal.eraseLinesBy 1 ++ Sample.frame1)%string].
Proof.
  assert (Sample.frame1 <> "") as Hne by differ.
  split; [exact Hne|].
  destruct (@empty_output_counts_one_line Terminal.vt100 (create false true)
              Sample.frame1 Hne) as (Hclear & _ & Hsync & _).
  split; [exact Hclear | exact Hsync].
Defined.

(** From the two lines of [frame1] to one line: one surplus line is
    erased, then the cursor goes up by one. *)
Lemma cursor_moves_are_valid_witness :
  fst (run (create false true) [Render Sample.frame1])
  = IncrementalRenderer false Sample.shown
  /\ Incremental.previousOutput Sample.shown <> ""
  /\ Incremental.positionCursor 2 1
     = [Terminal.eraseLinesBy 1; Terminal.cursorUpBy 1].
Proof.
  assert (Incremental.previousOutput Sample.shown <> "") as Hne by differ.
  split; [reflexivity|]. split; [exact Hne|].
  destruct (@cursor_moves_are_valid Terminal.vt100 false
              [Render Sample.frame1] Sample.shown "top" eq_refl Hne)
    as [(Hle & _)|(_ & _ & Hmoves)].
  - exfalso. vm_compute in Hle. now apply Hle.
  - exact Hmoves.
Defined.

(** From [frame1] to [frame2]: as many lines, so one of them differs. *)
Lemma effective_render_rewrites_witness :
  fst (run (create false true) [Render Sample.frame1])
  = IncrementalRenderer false Sample.shown
  /\ Incremental.previousOutput Sample.shown <> ""
  /\ Sample.frame2 <> Incremental.previousOutput Sample.shown
  /\ exists i line,
       nth_error (Js.split Sample.frame2) i = Some line
       /\ Incremental.contentChanged (Js.split Sample.frame2)
            (Incremental.previousLines Sample.shown) i = true.
Proof.
  assert (Incremental.previousOutput Sample.shown <> "") as Hne by differ.
  assert (Sample.frame2 <> Incremental.previousOutput Sample.shown)
    as Hdiff by differ.
  split; [reflexivity|]. split; [exact Hne|]. split; [exact Hdiff|].
  destruct (@effective_render_rewrites Terminal.vt100 false
              [Render Sample.frame1] Sample.shown Sample.frame2 eq_refl Hne Hdiff)
    as [Hshrink|Hline].
  - exfalso. vm_compute in Hshrink. lia.
  - exact Hline.
Defined.

(** In the viewport, [scrollTo({y: -5})] is [scrollToTop()]. *)
Lemma scrollTo_reaches_top_and_bottom_witness :
  Num (-5) <> NaN
  /\ number_le (Num (-5)) (Num 0)
  /\ Box.scrollTo Sample.viewport
       {| option_x := None; option_y := Some (Num (-5)) |} Box.mount
     = Box.scrollToTop Box.mount.
Proof.
  assert (Num (-5) <> NaN) as Hv by discriminate.
  assert (number_le (Num (-5)) (Num 0)) as Hle by (simpl; lia).
  split; [exact Hv|]. split; [exact Hle|].
  exact (proj1 (@scrollTo_reaches_top_and_bottom Sample.viewport Box.mount
                  (Num (-5)) Hv) Hle).
Defined.

(** A layout effect of a scroll container and a scroll call on a newly
    mounted [Box]: the element holds the position, the version is 1. *)
Lemma scroll_offset_in_step_witness :
  let calls :=
    [Box.LayoutEffect {| overflow := Some scroll; overflowX := None;
                         overflowY := None |};
     Box.ScrollTo {| option_x := None; option_y := Some (Num 4) |}] in
  let st' := Box.run Sample.viewport Box.mount calls in
  (Box.internal_scrollOffset Box.mount = None
   \/ Box.internal_scrollOffset Box.mount = Some (Box.scrollStateRef Box.mount))
  /\ Box.internal_scrollOffset st' = Some (Box.scrollStateRef st')
  /\ Box.scrollVersion st' = 1.
Proof.
  intros calls st'.
  split; [now left|].
  destruct (@scroll_offset_in_step Sample.viewport calls Box.mount
              (or_introl eq_refl)) as (_ & Hset & Hversion).
  split; [exact (Hset eq_refl) | exact Hversion].
Defined.


(** The viewport has room for 8 columns; its content is wider. *)
Lemma maxScroll_shows_everything_witness :
  yogaNode Sample.viewport = Some (Sample.bordered 0 0 10 5 1)
  /\ 0 <= innerWidth (Sample.bordered 0 0 10 5 1)
  /\ (x (Box.getMaxScroll Sample.viewport) = 0 <->
      forall edge,
        In edge (laidOutEdges Sample.viewport 0 0) ->
        fst edge <= innerWidth (Sample.bordered 0 0 10 5 1)).
Proof.
  assert (0 <= innerWidth (Sample.bordered 0 0 10 5 1)) as Hinner.
  { vm_compute. discriminate. }
  split; [reflexivity|]. split; [exact Hinner|].
  destruct (@maxScroll_shows_everything Sample.viewport _ eq_refl)
    as (_ & Hwidth & _).
  exact (Hwidth Hinner).
Defined.

(** A container with one box, and with a text node and a second box
    added around it. *)
Lemma maxScroll_grows_with_content_witness :
  let child := mkElement (Some (Sample.box 0 0 12 3)) None [] in
  let text := mkElement None None [] in
  let other := mkElement (Some (Sample.box 0 3 30 9)) None [] in
  let yoga := Sample.box 0 0 10 10 in
  incl [child] [text; child; other]
  /\ x (Box.getMaxScroll (mkElement (Some yoga) None [child]))
     <= x (Box.getMaxScroll (mkElement (Some yoga) None [text; child; other])).
Proof.
  intros child text other yoga.
  assert (incl [child] [text; child; other]) as Hincl.
  { intros node [<-|[]]. right. left. reflexivity. }
  split; [exact Hincl|].
  exact (proj1 (@maxScroll_grows_with_content yoga None None _ _ Hincl)).
Defined.

(** The nested sample box: its parent is at (8, 9) in the frame. *)
Lemma bounds_relative_to_parent_witness :
  let parent := mkElement (Some (Sample.box 3 4 10 10)) (Some Sample.root) [] in
  hasGeometry parent = true
  /\ Box.getBounds Sample.nested
     = {| bounds_x := bounds_x (Box.getBounds parent) + 1;
          bounds_y := bounds_y (Box.getBounds parent) + 2;
          bounds_width := 4; bounds_height := 1 |}.
Proof.
  intros parent. split; [reflexivity|].
  exact (proj1 (@bounds_relative_to_parent (Sample.box 1 2 4 1) [] parent)
           eq_refl).
Defined.
